(** * pdf_editor.py: rotate pages, replace text, add a footer image

    A shallow embedding of [scripts/pdf_editor.py] and of the parts of
    Python, PyPDF2 and reportlab that the script calls, followed by the
    properties of the three transforms and of the command line driver. *)

From Stdlib Require Import ZArith QArith List Strings.String Strings.Byte Strings.Ascii Lia.
From stdpp Require Import base gmap list strings option.

Open Scope Z_scope.

(** ** Python builtins used by the script *)

Module Py.

(** [bytes] objects. *)
Abbreviation bytes := (list byte).

(** [str.encode('utf-8')]. A [str] that came from the command line is held
    here as the UTF-8 byte sequence the operating system passed in, so that
    encoding it gives these bytes back. Bytes that are not well-formed
    UTF-8 reach Python as lone surrogates, on which [encode] raises
    [UnicodeEncodeError]; a call of the substitution transform that returns
    was given well-formed text. *)
Definition encode_utf8 (s : string) : bytes := list_byte_of_string s.

(** [s.startswith(p)] on [bytes]. *)
Fixpoint startswith (p s : bytes) : bool :=
  match p, s with
  | [], _ => true
  | _ :: _, [] => false
  | x :: p', c :: s' => Byte.eqb x c && startswith p' s'
  end.

(** Number of positions of [s] at which [p] occurs (overlapping occurrences
    are all counted). *)
Fixpoint occurrences (p s : bytes) : nat :=
  match s with
  | [] => if startswith p [] then 1%nat else 0%nat
  | _ :: s' => ((if startswith p s then 1 else 0) + occurrences p s')%nat
  end.

(** The scan of [bytes.replace] for a non-empty pattern: left to right, the
    leftmost occurrence is replaced and the scan resumes right after it.
    [skip] counts the bytes of a matched occurrence still to be dropped. *)
Fixpoint replace_scan (old new : bytes) (skip : nat) (s : bytes) : bytes :=
  match s with
  | [] => []
  | c :: s' =>
      match skip with
      | S k => replace_scan old new k s'
      | O =>
          if startswith old s
          then new ++ replace_scan old new (length old - 1) s'
          else c :: replace_scan old new 0 s'
      end
  end.

(** [s.replace(old, new)] on [bytes]. With an empty [old], Python puts [new]
    before every byte and at the end. *)
Definition replace (old new s : bytes) : bytes :=
  match old with
  | [] => new ++ flat_map (fun c => c :: new) s
  | _ :: _ => replace_scan old new 0 s
  end.

End Py.

(** ** The two literals of the documented use case *)

Definition old_url : Py.bytes := Eval cbv in Py.encode_utf8 "team-wiki.local".
Definition new_url : Py.bytes := Eval cbv in Py.encode_utf8 "team-wiki.etc.com".


(** ** More Python: [str] methods and [int] *)

Module PyStr.

Definition is_digit (c : ascii) : bool :=
  let n := nat_of_ascii c in (48 <=? n)%nat && (n <=? 57)%nat.

Definition digit_value (c : ascii) : Z := Z.of_nat (nat_of_ascii c) - 48.

(** The ASCII characters [int] strips from both ends: the space and the
    control characters 9 to 13. The separators 28 to 31 are not among them:
    [int] leaves them in place and then rejects them. *)
Definition is_space (c : ascii) : bool :=
  let n := nat_of_ascii c in
  (n =? 32)%nat || ((9 <=? n)%nat && (n <=? 13)%nat).

Fixpoint lstrip (s : string) : string :=
  match s with
  | String c s' => if is_space c then lstrip s' else s
  | EmptyString => EmptyString
  end.

Fixpoint rstrip (s : string) : string :=
  match s with
  | EmptyString => EmptyString
  | String c s' =>
      match rstrip s' with
      | EmptyString => if is_space c then EmptyString else String c EmptyString
      | t => String c t
      end
  end.

(** The digits of a base-10 literal; a single underscore may separate two
    digits. [after_digit] tells whether the previous character was one. *)
Fixpoint digits (acc : Z) (after_digit : bool) (s : string) : option Z :=
  match s with
  | EmptyString => if after_digit then Some acc else None
  | String c s' =>
      if is_digit c then digits (10 * acc + digit_value c) true s'
      else if Ascii.eqb c "_"
           then (if after_digit then digits acc false s' else None)
           else None
  end.

(** [int] on ASCII text: surrounding white space, an optional sign, then
    the digits. [None] stands for the [ValueError] that [int] raises. *)
Definition int_ascii (s : string) : option Z :=
  match rstrip (lstrip s) with
  | String "-" t => Z.opp <$> digits 0 false t
  | String "+" t => digits 0 false t
  | t => digits 0 false t
  end.

(** The payload of a continuation byte of UTF-8. *)
Definition continuation (c : ascii) : option N :=
  let b := N_of_ascii c in
  if (128 <=? b)%N && (b <? 192)%N then Some (b - 128)%N else None.

(** The code points of a text held as UTF-8; [None] when the bytes are not
    well-formed UTF-8 (Python then holds the offending bytes as lone
    surrogates, which are neither digits nor spaces). *)
Fixpoint code_points (s : string) : option (list N) :=
  match s with
  | EmptyString => Some []
  | String c1 s1 =>
      let b1 := N_of_ascii c1 in
      if (b1 <? 128)%N then cons b1 <$> code_points s1
      else if (b1 <? 194)%N then None
      else if (b1 <? 224)%N then
        match s1 with
        | String c2 s2 =>
            match continuation c2 with
            | Some x2 => cons ((b1 - 192) * 64 + x2)%N <$> code_points s2
            | None => None
            end
        | EmptyString => None
        end
      else if (b1 <? 240)%N then
        match s1 with
        | String c2 (String c3 s3) =>
            match continuation c2, continuation c3 with
            | Some x2, Some x3 =>
                let cp := ((b1 - 224) * 4096 + x2 * 64 + x3)%N in
                if (cp <? 2048)%N || ((55296 <=? cp)%N && (cp <? 57344)%N)
                then None
                else cons cp <$> code_points s3
            | _, _ => None
            end
        | _ => None
        end
      else if (b1 <? 245)%N then
        match s1 with
        | String c2 (String c3 (String c4 s4)) =>
            match continuation c2, continuation c3, continuation c4 with
            | Some x2, Some x3, Some x4 =>
                let cp := ((b1 - 240) * 262144 + x2 * 4096 + x3 * 64 + x4)%N in
                if (cp <? 65536)%N || (1114111 <? cp)%N then None
                else cons cp <$> code_points s4
            | _, _, _ => None
            end
        | _ => None
        end
      else None
  end.

(** The white space outside ASCII ([str.isspace]). *)
Definition unicode_space (cp : N) : bool :=
  (cp =? 133)%N || (cp =? 160)%N || (cp =? 5760)%N
  || ((8192 <=? cp)%N && (cp <=? 8202)%N)
  || (cp =? 8232)%N || (cp =? 8233)%N || (cp =? 8239)%N || (cp =? 8287)%N
  || (cp =? 12288)%N.

(** The digit zero of every script outside ASCII that has decimal digits
    (general category Nd of Unicode 14.0, the version of Python 3.11); the
    digits one to nine of a script follow its zero. *)
Definition unicode_zeros : list N :=
  [ 1632; 1776; 1984; 2406; 2534; 2662; 2790; 2918; 3046; 3174; 3302;
    3430; 3558; 3664; 3792; 3872; 4160; 4240; 6112; 6160; 6470; 6608;
    6784; 6800; 6992; 7088; 7232; 7248; 42528; 43216; 43264; 43472;
    43504; 43600; 44016; 65296; 66720; 68912; 69734; 69872; 69942; 70096;
    70384; 70736; 70864; 71248; 71360; 71472; 71904; 72016; 72784; 73040;
    73120; 92768; 92864; 93008; 120782; 120792; 120802; 120812; 120822;
    123200; 123632; 125264; 130032 ]%N.

(** The value of a decimal digit outside ASCII. *)
Definition unicode_decimal (cp : N) : option N :=
  (fun z => (cp - z)%N) <$>
    List.find (fun z => (z <=? cp)%N && (cp <=? z + 9)%N) unicode_zeros.

(** What [int] makes of a character before it reads the number: an ASCII
    character is kept, white space becomes a space, a decimal digit of any
    script becomes the ASCII digit of its value, and nothing else is
    accepted. *)
Definition to_ascii (cp : N) : option ascii :=
  if (cp <? 128)%N then Some (ascii_of_N cp)
  else if unicode_space cp then Some " "%char
  else (fun d => ascii_of_N (48 + d)) <$> unicode_decimal cp.

Fixpoint transform (cps : list N) : option string :=
  match cps with
  | [] => Some EmptyString
  | cp :: cps' =>
      match to_ascii cp, transform cps' with
      | Some c, Some t => Some (String c t)
      | _, _ => None
      end
  end.

(** [int(s)] for a [str] [s]: the decimal digits and the white space of
    every script are taken for their ASCII counterparts, then the text is
    read as ASCII. (Python 3.11 also refuses a literal of more than 4300
    digits; there is no such bound here.) *)
Definition int (s : string) : option Z :=
  match code_points s with
  | Some cps =>
      match transform cps with
      | Some t => int_ascii t
      | None => None
      end
  | None => None
  end.

(** [s.split(sep)] for a separator of one character. *)
Fixpoint split (sep : ascii) (s : string) : list string :=
  match s with
  | EmptyString => [EmptyString]
  | String c s' =>
      if Ascii.eqb c sep then EmptyString :: split sep s'
      else match split sep s' with
           | t :: ts => String c t :: ts
           | [] => [String c EmptyString]
           end
  end.

Definition lower_ascii (c : ascii) : ascii :=
  let n := nat_of_ascii c in
  if (65 <=? n)%nat && (n <=? 90)%nat then ascii_of_nat (n + 32) else c.

(** [s.lower()]; only the letters A to Z matter for the suffix test the
    script makes, and bytes of multi-byte characters are never ASCII. *)
Fixpoint lower (s : string) : string :=
  match s with
  | EmptyString => EmptyString
  | String c s' => String (lower_ascii c) (lower s')
  end.

(** [s.endswith(suffix)]. *)
Definition endswith (s suffix : string) : bool :=
  let n := String.length s in
  let k := String.length suffix in
  (k <=? n)%nat && String.eqb (String.substring (n - k) k s) suffix.

(** Truth value of a [str]: the empty string is false. *)
Definition truthy (s : string) : bool :=
  match s with EmptyString => false | String _ _ => true end.

End PyStr.

(** ** Exceptions, outcomes, the file system and standard output *)

Inductive exn :=
  | KeyError (key : string)
  | IndexError
  | ValueError (msg : string)
  | InvalidLiteral (literal : string)
      (* the ValueError of int(literal), whose message is "invalid literal
         for int() with base 10: " followed by repr(literal) *)
  | AttributeError (msg : string)
  | PdfReadError
  | OSError (path : string).

(** How a piece of Python code ends. [sys.exit] raises [SystemExit], which
    is not an [Exception]: an [except Exception] clause lets it through. *)
Inductive outcome (A : Type) :=
  | Return (a : A)
  | Raise (e : exn)
  | SystemExit (code : Z).
Arguments Return {A} a.
Arguments Raise {A} e.
Arguments SystemExit {A} code.

(** ** PyPDF2 and reportlab objects

    Lengths are in points. They are floats in Python and rationals here:
    the rounding of float arithmetic is not modelled. *)

Module Pdf.

(** One [drawImage] call recorded in the content of a canvas page. *)
Record ImageDraw := {
  image : string;
  x : Q;
  y : Z;
  width : Z;
  height : Z
}.

(** A reportlab canvas: the page size it was created with and the drawing
    code of the page under construction. *)
Record Canvas := {
  pagesize : Q * Q;
  code : list ImageDraw
}.

(** A page of the PDF that [Canvas.save] produced. *)
Record Overlay := {
  overlay_size : Q * Q;
  overlay_images : list ImageDraw
}.

(** A PyPDF2 page object, a dictionary. [Contents] is its ["/Contents"]
    entry: [None] when the key is absent, else the number of the stream
    object it refers to. The documents described are those whose content
    entries are single streams without a ["/Filter"]: on an array of
    streams [get_data] does not exist, and on a filtered stream [set_data]
    raises, so that the substitution transform returns on no other
    document; what is proved of its result is therefore stated for the
    calls that return. [Rotate] is the stored ["/Rotate"] value, 0 when
    absent. [merged] lists what [merge_page] has put on top of the page,
    bottom first. *)
Record Page := {
  mediabox : Q * Q;
  Rotate : Z;
  Contents : option nat;
  merged : list Overlay
}.

(** A document: its pages in order and its stream objects by number. A
    reference to a number that is not in [objects] is dangling: PyPDF2
    resolves it to [None]. *)
Record Document := {
  pages : list Page;
  objects : gmap nat Py.bytes
}.

(** [page.rotate(angle)]: PyPDF2 refuses an angle that is not a multiple of
    90 and otherwise adds it to the stored ["/Rotate"] value. *)
Definition rotate (angle : Z) (page : Page) : outcome Page :=
  if negb (angle mod 90 =? 0)
  then Raise (ValueError "Rotation angle must be a multiple of 90")
  else Return {| mediabox := mediabox page;
                 Rotate := Rotate page + angle;
                 Contents := Contents page;
                 merged := merged page |}.

(** [page["/Contents"]]: subscription of a dictionary raises [KeyError] on
    a missing key; a reference is followed to its object, [None] standing
    for Python's [None]. *)
Definition getitem_Contents (objs : gmap nat Py.bytes) (page : Page)
  : outcome (option (nat * Py.bytes)) :=
  match Contents page with
  | None => Raise (KeyError "/Contents")
  | Some ref =>
      Return (match objs !! ref with
              | Some data => Some (ref, data)
              | None => None
              end)
  end.

(** [page.merge_page(page2)]: [page2] is laid over the page. *)
Definition merge_page (page : Page) (page2 : Overlay) : Page :=
  {| mediabox := mediabox page;
     Rotate := Rotate page;
     Contents := Contents page;
     merged := merged page ++ [page2] |}.

(** [canvas.Canvas(buffer, pagesize=size)]. *)
Definition new_canvas (size : Q * Q) : Canvas :=
  {| pagesize := size; code := [] |}.

(** [c.save()] followed by [PdfReader(buffer).pages]: reportlab closes the
    page under construction only when something was drawn on it
    ([if len(self._code): self.showPage()]), so a canvas nothing was drawn
    on is saved as a document without pages. *)
Definition save (c : Canvas) : list Overlay :=
  match code c with
  | [] => []
  | _ :: _ => [ {| overlay_size := pagesize c; overlay_images := code c |} ]
  end.

End Pdf.

(** What a path of the file system holds. *)
Inductive file :=
  | FPdf (d : Pdf.Document)   (* a PDF file that PyPDF2 reads as [d] *)
  | FRaster                   (* a raster image reportlab can read *)
  | FDir                      (* a directory *)
  | FEmpty                    (* an empty file *)
  | FOther.                   (* anything else *)

(** A line written by [print]. *)
Inductive line :=
  | Text (s : string)
  | TextExn (s : string) (e : exn).   (* f"{s}{e}" *)

Record World := {
  files : gmap string file;
  stdout : list line
}.

(** ** Computations that read and change the world *)

Definition M (A : Type) : Type := World → outcome A * World.

Definition ret {A} (a : A) : M A := fun w => (Return a, w).

Definition bind {A B} (m : M A) (k : A → M B) : M B :=
  fun w =>
    match m w with
    | (Return a, w') => k a w'
    | (Raise e, w') => (Raise e, w')
    | (SystemExit c, w') => (SystemExit c, w')
    end.

Definition lift {A} (o : outcome A) : M A := fun w => (o, w).

Declare Scope py_scope.
Delimit Scope py_scope with py.
Notation "'let!' x ':=' m 'in' k" := (bind m (fun x => k))
  (at level 10, x pattern, m at level 100, k at level 200) : py_scope.
Notation "m ';;' k" := (bind m (fun _ => k))
  (at level 100, k at level 200, right associativity) : py_scope.
Open Scope py_scope.

(** [for x in xs: s = body(x, s)]. *)
Fixpoint for_each {A S} (body : A → S → M S) (xs : list A) (s : S) : M S :=
  match xs with
  | [] => ret s
  | x :: xs' => let! s' := body x s in for_each body xs' s'
  end.

Definition print (l : line) : M unit :=
  fun w => (Return tt, {| files := files w; stdout := stdout w ++ [l] |}).

Definition sys_exit {A} (code : Z) : M A := fun w => (SystemExit code, w).

(** [Path(p).exists()]. *)
Definition path_exists (p : string) : M bool :=
  fun w => (Return (bool_decide (is_Some (files w !! p))), w).

(** [PdfReader(p)]: the pages and objects of the PDF file at [p]. *)
Definition PdfReader (p : string) : M Pdf.Document :=
  fun w =>
    match files w !! p with
    | Some (FPdf d) => (Return d, w)
    | Some FDir | None => (Raise (OSError p), w)
    | Some _ => (Raise PdfReadError, w)
    end.

(** [open(p, "wb")]: the file is created, or truncated if it exists. The
    file system is a flat map from paths to what they hold, in which every
    path that is not a directory can be opened for writing; a path below a
    directory that is missing or cannot be written to has no place in
    it. *)
Definition open_wb (p : string) : M unit :=
  fun w =>
    match files w !! p with
    | Some FDir => (Raise (OSError p), w)
    | _ => (Return tt, {| files := <[p := FEmpty]> (files w); stdout := stdout w |})
    end.

(** [PdfWriter.write(f)] on the file opened at [p], for a write that the
    operating system carries out; like [print] below [open], it is taken
    to go through. *)
Definition write_pdf (p : string) (d : Pdf.Document) : M unit :=
  fun w => (Return tt, {| files := <[p := FPdf d]> (files w); stdout := stdout w |}).

(** [c.drawImage(image, x, y, width=, height=)]: reportlab reads the image
    file first and raises when it cannot; nothing is drawn then. *)
Definition drawImage (c : Pdf.Canvas) (image : string) (x : Q) (y width height : Z)
  : M Pdf.Canvas :=
  fun w =>
    match files w !! image with
    | Some FRaster =>
        (Return {| Pdf.pagesize := Pdf.pagesize c;
                   Pdf.code := Pdf.code c ++
                     [ {| Pdf.image := image; Pdf.x := x; Pdf.y := y;
                          Pdf.width := width; Pdf.height := height |} ] |}, w)
    | _ => (Raise (OSError image), w)
    end.

(** ** The script: the three transforms *)

(** [rotate_pages(pdf_path, rotations)]. *)
Definition rotate_pages (pdf_path : string) (rotations : gmap Z Z) : M Pdf.Document :=
  let! reader := PdfReader pdf_path in
  let! writer :=
    for_each
      (fun (page_num : nat) (writer : list Pdf.Page) =>
         match Pdf.pages reader !! page_num with
         | None => lift (Raise IndexError)
         | Some page =>
             let! page :=
               match rotations !! (Z.of_nat page_num + 1) with
               | Some angle => lift (Pdf.rotate angle page)
               | None => ret page
               end in
             ret (writer ++ [page])
         end)
      (seq 0 (length (Pdf.pages reader))) [] in
  ret {| Pdf.pages := writer; Pdf.objects := Pdf.objects reader |}.

(** The body of the loop of [replace_text_in_pdf]. The state is the stream
    objects of the reader, which [set_data] updates in place, and the pages
    added to the writer so far. *)
Definition replace_page (old_text new_text : string) (page : Pdf.Page)
    (st : gmap nat Py.bytes * list Pdf.Page) : M (gmap nat Py.bytes * list Pdf.Page) :=
  let '(objs, writer) := st in
  let! contents := lift (Pdf.getitem_Contents objs page) in
  match contents with
  | Some (ref, content) =>
      let modified_content :=
        Py.replace (Py.encode_utf8 old_text) (Py.encode_utf8 new_text) content in
      ret (<[ref := modified_content]> objs, writer ++ [page])
  | None => ret (objs, writer ++ [page])
  end.

(** [replace_text_in_pdf(pdf_path, old_text, new_text)]. *)
Definition replace_text_in_pdf (pdf_path old_text new_text : string) : M Pdf.Document :=
  let! reader := PdfReader pdf_path in
  let! st := for_each (replace_page old_text new_text)
               (Pdf.pages reader) (Pdf.objects reader, []) in
  ret {| Pdf.pages := st.2; Pdf.objects := st.1 |}.

(** [image_path.lower().endswith('.svg')]. *)
Definition is_svg (image_path : string) : bool :=
  PyStr.endswith (PyStr.lower image_path) ".svg".

(** The [try] statement inside the loop of [add_footer_image]: an exception
    of the drawing is printed as a warning and the canvas is left as it
    was. *)
Definition try_draw (c : Pdf.Canvas) (image_path : string) (footer_x : Q)
    (footer_y image_size : Z) : M Pdf.Canvas :=
  if is_svg image_path then ret c
  else
    fun w =>
      match drawImage c image_path (footer_x - inject_Z image_size)%Q
              footer_y image_size image_size w with
      | (Raise e, w') =>
          (print (TextExn "Warning: Could not add footer image: " e) ;; ret c) w'
      | r => r
      end.

(** The body of the loop of [add_footer_image]. *)
Definition footer_page (image_path : string) (page : Pdf.Page)
    (writer : list Pdf.Page) : M (list Pdf.Page) :=
  let page_width_pts := (Pdf.mediabox page).1 in
  let page_height_pts := (Pdf.mediabox page).2 in
  let c := Pdf.new_canvas (page_width_pts, page_height_pts) in
  let footer_x := (page_width_pts - 50)%Q in
  let footer_y := 30 in
  let image_size := 30 in
  let! c := try_draw c image_path footer_x footer_y image_size in
  match Pdf.save c !! 0%nat with
  | None => lift (Raise IndexError)
  | Some footer_page0 => ret (writer ++ [Pdf.merge_page page footer_page0])
  end.

(** [add_footer_image(pdf_path, image_path)]. *)
Definition add_footer_image (pdf_path image_path : string) : M Pdf.Document :=
  let! reader := PdfReader pdf_path in
  let! writer := for_each (footer_page image_path) (Pdf.pages reader) [] in
  ret {| Pdf.pages := writer; Pdf.objects := Pdf.objects reader |}.

(** ** The script: [main] *)

(** The command line after [argparse]: [--input] and [--output] are
    required, the other options are [None] when not given. [parse_args]
    itself ends the process with status 2 on a command line it refuses (a
    required option left out, or a value that starts with a dash and is
    given as a separate word, as in [--rotate -1:90]); what follows is the
    script from the point where [parse_args] has returned. *)
Record Args := {
  input : string;
  output : string;
  rotate : option string;
  replace_url : option (string * string);
  footer_image : option string
}.

(** [page, angle = parts]. *)
Definition unpack2 (parts : list string) : outcome (string * string) :=
  match parts with
  | [page; angle] => Return (page, angle)
  | [] => Raise (ValueError "not enough values to unpack (expected 2, got 0)")
  | [_] => Raise (ValueError "not enough values to unpack (expected 2, got 1)")
  | _ => Raise (ValueError "too many values to unpack (expected 2)")
  end.

(** [int(s)], with the exception it raises. *)
Definition py_int (s : string) : outcome Z :=
  match PyStr.int s with
  | Some n => Return n
  | None => Raise (InvalidLiteral s)
  end.

(** The body of the loop that parses [--rotate]. In
    [rotations[int(page)] = int(angle)] Python evaluates the right-hand side
    first. *)
Definition parse_rotation (rotation : string) (rotations : gmap Z Z) : M (gmap Z Z) :=
  let! (page, angle) := lift (unpack2 (PyStr.split ":" rotation)) in
  let! a := lift (py_int angle) in
  let! p := lift (py_int page) in
  ret (<[p := a]> rotations).

(** The parsing loop over [args.rotate.split(",")]. *)
Definition parse_rotations (spec : string) : M (gmap Z Z) :=
  for_each parse_rotation (PyStr.split "," spec) ∅.

(** The object bound to the variable [writer] of [main]: the [PdfReader] it
    starts as, or the [PdfWriter] a transform returned. *)
Inductive working :=
  | BareReader (d : Pdf.Document)
  | Writer (d : Pdf.Document).

(** [writer.write(f)]: a [PdfReader] has no [write] attribute. *)
Definition write_working (p : string) (writer : working) : M unit :=
  match writer with
  | Writer d => write_pdf p d
  | BareReader _ =>
      lift (Raise (AttributeError "'PdfReader' object has no attribute 'write'"))
  end.

(** The body of the [try] statement of [main]. *)
Definition main_try (args : Args) : M unit :=
  let! reader := PdfReader (input args) in
  let writer := BareReader reader in
  let! writer :=
    match rotate args with
    | Some spec =>
        if PyStr.truthy spec then
          let! rotations := parse_rotations spec in
          let! w := rotate_pages (input args) rotations in
          ret (Writer w)
        else ret writer
    | None => ret writer
    end in
  let! writer :=
    match replace_url args with
    | Some (old, new) =>
        let! w := replace_text_in_pdf (input args) old new in
        ret (Writer w)
    | None => ret writer
    end in
  let! writer :=
    match footer_image args with
    | Some image =>
        if PyStr.truthy image then
          let! found := path_exists image in
          if negb found then
            print (Text ("Error: Footer image not found: " ++ image)) ;;
            sys_exit 1
          else
            let! w := add_footer_image (input args) image in
            ret (Writer w)
        else ret writer
    | None => ret writer
    end in
  open_wb (output args) ;;
  write_working (output args) writer ;;
  print (Text ("âœ… PDF processed successfully: " ++ output args)).

(** [main()], from the parsed arguments on. *)
Definition main (args : Args) : M unit :=
  let! found := path_exists (input args) in
  if negb found then
    print (Text ("Error: Input file not found: " ++ input args)) ;;
    sys_exit 1
  else
    fun w =>
      match main_try args w with
      | (Raise e, w') =>
          (print (TextExn "Error processing PDF: " e) ;; sys_exit 1) w'
      | r => r
      end.

(** The exit status of the process: 0 when [main] returns, the argument of
    [sys.exit] otherwise; an exception that leaves [main] would give 1. *)
Definition exit_code {A} (o : outcome A) : Z :=
  match o with
  | Return _ => 0
  | SystemExit code => code
  | Raise _ => 1
  end.

(** ** A small world to run the script in *)

Module Sample.

Definition letter : Q * Q := (612, 792)%Q.

Definition page (rot : Z) (contents : option nat) : Pdf.Page :=
  {| Pdf.mediabox := letter; Pdf.Rotate := rot; Pdf.Contents := contents;
     Pdf.merged := [] |}.

Definition doc : Pdf.Document :=
  {| Pdf.pages := [page 0 (Some 1%nat); page 270 (Some 2%nat)];
     Pdf.objects :=
       <[1%nat := Py.encode_utf8 "(see team-wiki.local) Tj"]>
       (<[2%nat := Py.encode_utf8 "(team-wiki.etc.com or team-wiki.local) Tj"]> ∅) |}.

(** A document whose only page has no ["/Contents"] entry. *)
Definition blank_doc : Pdf.Document :=
  {| Pdf.pages := [page 0 None]; Pdf.objects := ∅ |}.

Definition world : World :=
  {| files := <["in.pdf" := FPdf doc]>
              (<["blank.pdf" := FPdf blank_doc]>
              (<["logo.png" := FRaster]>
              (<["logo.svg" := FOther]>
              (<["broken.png" := FOther]> ∅))));
     stdout := [] |}.

Definition args (r : option string) (u : option (string * string))
    (f : option string) : Args :=
  {| input := "in.pdf"; output := "out.pdf"; rotate := r; replace_url := u;
     footer_image := f |}.

End Sample.

(** ** Vocabulary of the properties *)

(** A computation that only looks at the files: its result is the same in
    two worlds with the same files, and it leaves the files alone. *)
Definition observer {A} (m : M A) : Prop :=
  ∀ w w', files w = files w' →
    (m w).1 = (m w').1 ∧ files (m w).2 = files w.

(** A computation that neither reads nor changes the world. *)
Definition stateless {A} (m : M A) : Prop := ∃ o, ∀ w, m w = (o, w).

(** What the rotation loop makes of the page at index [i]. *)
Definition rotated (rotations : gmap Z Z) (i : nat) (page : Pdf.Page) : Pdf.Page :=
  match rotations !! (Z.of_nat i + 1) with
  | Some angle =>
      {| Pdf.mediabox := Pdf.mediabox page;
         Pdf.Rotate := Pdf.Rotate page + angle;
         Pdf.Contents := Pdf.Contents page;
         Pdf.merged := Pdf.merged page |}
  | None => page
  end.

(** Every angle mapped to one of the first [n] page numbers is a multiple of
    90. *)
Definition right_angles (rotations : gmap Z Z) (n : nat) : bool :=
  forallb
    (fun i : nat =>
       match rotations !! (Z.of_nat i + 1) with
       | Some angle => angle mod 90 =? 0
       | None => true
       end)
    (seq 0 n).

(** The stream objects after the substitution loop has gone over the pages
    [ps], [f] being the replacement applied to the data of a stream. *)
Definition replace_store (f : Py.bytes → Py.bytes) (ps : list Pdf.Page)
    (objs : gmap nat Py.bytes) : gmap nat Py.bytes :=
  foldl
    (fun objs page =>
       match Pdf.Contents page with
       | Some ref =>
           match objs !! ref with
           | Some data => <[ref := f data]> objs
           | None => objs
           end
       | None => objs
       end)
    objs ps.

Definition has_contents_key (page : Pdf.Page) : bool :=
  match Pdf.Contents page with Some _ => true | None => false end.

(** The path holds a raster image that reportlab can read. *)
Definition holds_raster (w : World) (p : string) : bool :=
  match files w !! p with Some FRaster => true | _ => false end.

(** The path is a directory. *)
Definition holds_dir (w : World) (p : string) : bool :=
  match files w !! p with Some FDir => true | _ => false end.

(** The overlay page that a successful draw produces for [page]. *)
Definition footer_overlay (image_path : string) (page : Pdf.Page) : Pdf.Overlay :=
  {| Pdf.overlay_size := ((Pdf.mediabox page).1, (Pdf.mediabox page).2);
     Pdf.overlay_images :=
       [ {| Pdf.image := image_path;
            Pdf.x := ((Pdf.mediabox page).1 - 50 - 30)%Q;
            Pdf.y := 30;
            Pdf.width := 30;
            Pdf.height := 30 |} ] |}.

(** A computation that never calls [sys.exit]. *)
Definition no_exit {A} (m : M A) : Prop := ∀ w c, (m w).1 ≠ SystemExit c.

(** The three [if] statements of [main], each as the transform it applies
    when its test is true. *)
Definition rotate_transform (args : Args) : option (M Pdf.Document) :=
  match rotate args with
  | Some spec =>
      if PyStr.truthy spec
      then Some (let! rotations := parse_rotations spec in
                 rotate_pages (input args) rotations)
      else None
  | None => None
  end.

Definition replace_transform (args : Args) : option (M Pdf.Document) :=
  match replace_url args with
  | Some (old, new) => Some (replace_text_in_pdf (input args) old new)
  | None => None
  end.

Definition footer_transform (args : Args) : option (M Pdf.Document) :=
  match footer_image args with
  | Some image =>
      if PyStr.truthy image then Some (add_footer_image (input args) image)
      else None
  | None => None
  end.

(** The transform applied last in the fixed order rotate, replace,
    footer. *)
Definition last_applied (args : Args) : option (M Pdf.Document) :=
  match footer_transform args with
  | Some t => Some t
  | None =>
      match replace_transform args with
      | Some t => Some t
      | None => rotate_transform args
      end
  end.


Definition rotate_stage (args : Args) (writer : working) : M working :=
  match rotate args with
  | Some spec =>
      if PyStr.truthy spec then
        let! rotations := parse_rotations spec in
        let! w := rotate_pages (input args) rotations in
        ret (Writer w)
      else ret writer
  | None => ret writer
  end.

Definition replace_stage (args : Args) (writer : working) : M working :=
  match replace_url args with
  | Some (old, new) =>
      let! w := replace_text_in_pdf (input args) old new in
      ret (Writer w)
  | None => ret writer
  end.

Definition footer_stage (args : Args) (writer : working) : M working :=
  match footer_image args with
  | Some image =>
      if PyStr.truthy image then
        let! found := path_exists image in
        if negb found then
          print (Text ("Error: Footer image not found: " ++ image)) ;;
          sys_exit 1
        else
          let! w := add_footer_image (input args) image in
          ret (Writer w)
      else ret writer
  | None => ret writer
  end.

Definition write_stage (args : Args) (writer : working) : M unit :=
  open_wb (output args) ;;
  write_working (output args) writer ;;
  print (Text ("âœ… PDF processed successfully: " ++ output args)).

(** What a stage that returns has done: the files are untouched, and the
    working object is either the one it was given, no transform having been
    applied, or the writer that the transform of the stage makes from the
    input path. *)
Definition stage_ok (t : option (M Pdf.Document)) (stage : working → M working) : Prop :=
  ∀ writer w writer' w',
    stage writer w = (Return writer', w') →
    files w' = files w
    ∧ match t with
      | Some t => ∃ d, (t w).1 = Return d ∧ writer' = Writer d
      | None => writer' = writer
      end.

(** A computation that, when it returns, has left the world as it found
    it: nothing written, nothing printed. *)
Definition returns_pure {A} (m : M A) : Prop :=
  ∀ w a w', m w = (Return a, w') → w' = w.

Definition is_return {A} (o : outcome A) : bool :=
  match o with Return _ => true | _ => false end.

(** The transform of an option of [main], when the option is given, returns
    a document in the world [w]. *)
Definition returns_on (t : option (M Pdf.Document)) (w : World) : bool :=
  match t with Some t => is_return (t w).1 | None => true end.

(** The path given to [--footer-image], when one is given, exists. *)
Definition footer_found (args : Args) (w : World) : bool :=
  match footer_image args with
  | Some image =>
      if PyStr.truthy image then bool_decide (is_Some (files w !! image))
      else true
  | None => true
  end.

(** The line that ends a successful run. *)
Definition success_line (args : Args) : line :=
  Text ("âœ… PDF processed successfully: " ++ output args).

(** The angle that the rotation loop looks up for the page at index [i]. *)
Definition angle_of (rotations : gmap Z Z) (i : nat) : option Z :=
  rotations !! (Z.of_nat i + 1).

(** The pattern occurs in none of the stream objects. *)
Definition absent_from (old : Py.bytes) (objs : gmap nat Py.bytes) : bool :=
  forallb (fun kv : nat * Py.bytes => Nat.eqb (Py.occurrences old kv.2) 0)
    (map_to_list objs).

(** An entry of [--rotate] that the parsing loop takes: it splits at the
    colon into exactly two fields, and [int] accepts both. *)
Definition entry_ok (rotation : string) : bool :=
  match PyStr.split ":" rotation with
  | [page; angle] =>
      match PyStr.int page, PyStr.int angle with
      | Some _, Some _ => true
      | _, _ => false
      end
  | _ => false
  end.

(** The argument of [--rotate] is a list of such entries, separated by
    commas. *)
Definition rotate_spec_ok (spec : string) : bool :=
  forallb entry_ok (PyStr.split "," spec).

(** The exceptions of class [ValueError]. *)
Definition is_ValueError (e : exn) : bool :=
  match e with ValueError _ | InvalidLiteral _ => true | _ => false end.

(** * Properties *)

(** ** The Python builtins on examples *)

Example int_plain : PyStr.int "90" = Some 90.
Proof. reflexivity. Qed.
Example int_signed_spaced : PyStr.int " -180 " = Some (-180).
Proof. reflexivity. Qed.
Example int_underscore : PyStr.int "1_0" = Some 10.
Proof. reflexivity. Qed.
Example int_rejects : PyStr.int "1__0" = None ∧ PyStr.int "" = None
  ∧ PyStr.int "9o" = None ∧ PyStr.int "-" = None ∧ PyStr.int "1_" = None.
Proof. repeat split; reflexivity. Qed.
Example int_other_scripts : PyStr.int "９０" = Some 90
  ∧ PyStr.int "-١٢" = Some (-12) ∧ PyStr.int "7　" = Some 7
  ∧ PyStr.int "－9" = None.
Proof. repeat split; reflexivity. Qed.
Example int_separator_not_stripped :
  PyStr.int (String (ascii_of_nat 28) "90") = None
  ∧ PyStr.int (String (ascii_of_nat 11) "90") = Some 90.
Proof. split; reflexivity. Qed.
Example split_example : PyStr.split "," "1:90,3:180" = ["1:90"; "3:180"]%string.
Proof. reflexivity. Qed.
Example split_empty : PyStr.split "," "" = [""%string] ∧ PyStr.split ":" "1:2:" = ["1"; "2"; ""]%string.
Proof. split; reflexivity. Qed.
Example endswith_svg : PyStr.endswith (PyStr.lower "Logo.SVG") ".svg" = true
  ∧ PyStr.endswith (PyStr.lower "logo.png") ".svg" = false
  ∧ PyStr.endswith (PyStr.lower "svg") ".svg" = false.
Proof. repeat split; reflexivity. Qed.

(** ** Byte replacement *)

Section ReplaceFacts.

Import Py.

Lemma startswith_app (p s : bytes) : startswith p (p ++ s) = true.
Proof.
  induction p as [|x p IH]; simpl; [reflexivity|].
  rewrite IH, andb_true_r.
  now apply Byte.byte_dec_lb.
Qed.

Lemma startswith_inv (p s : bytes) :
  startswith p s = true → ∃ t, s = p ++ t.
Proof.
  revert s. induction p as [|x p IH]; intros s H.
  - now exists s.
  - destruct s as [|c s]; simpl in H; [discriminate|].
    apply andb_prop in H as [Hc Hp].
    apply Byte.byte_dec_bl in Hc. subst c.
    destruct (IH _ Hp) as [t ->]. now exists t.
Qed.

Lemma replace_scan_skip (old new : bytes) (k : nat) (s : bytes) :
  replace_scan old new k s = replace_scan old new 0 (drop k s).
Proof.
  revert k. induction s as [|c s IH]; intros [|k]; simpl; try reflexivity.
  rewrite IH. now destruct (drop k s).
Qed.

(** The unfolding equation of the scan at a non-empty input. *)
Lemma replace_scan_cons (x : byte) (old new : bytes) (c : byte) (s : bytes) :
  replace_scan (x :: old) new 0 (c :: s) =
    if startswith (x :: old) (c :: s)
    then new ++ replace_scan (x :: old) new 0 (drop (length old) s)
    else c :: replace_scan (x :: old) new 0 s.
Proof.
  cbn [replace_scan]. destruct (startswith (x :: old) (c :: s)); [|reflexivity].
  rewrite replace_scan_skip. cbn [length]. now rewrite Nat.sub_succ, Nat.sub_0_r.
Qed.

Lemma replace_scan_match (x : byte) (old new t : bytes) :
  replace_scan (x :: old) new 0 ((x :: old) ++ t) =
    new ++ replace_scan (x :: old) new 0 t.
Proof.
  cbn [app]. rewrite replace_scan_cons.
  change (x :: old ++ t) with ((x :: old) ++ t).
  rewrite startswith_app. now rewrite drop_app_length.
Qed.

(** Where the pattern does not occur, the scan copies its input. *)
Lemma replace_scan_absent (x : byte) (old new s : bytes) :
  occurrences (x :: old) s = 0%nat → replace_scan (x :: old) new 0 s = s.
Proof.
  induction s as [|c s IH]; [reflexivity|].
  intros H. rewrite replace_scan_cons.
  cbn [occurrences] in H.
  destruct (startswith (x :: old) (c :: s)); [discriminate H|].
  f_equal. apply IH. exact H.
Qed.

(** *** Facts about the two literals

    Neither literal overlaps itself or the other one: both start with the
    only ["t"] that [old_url] has, and the second ["t"] of [new_url] is
    followed by ["c"]. The facts below are what the counting argument
    needs; each is by running [startswith] on the known bytes. *)

Abbreviation scan := (replace_scan old_url new_url 0).

Lemma occurrences_new_new (r : bytes) :
  occurrences new_url (new_url ++ r) = S (occurrences new_url r).
Proof. reflexivity. Qed.

Lemma occurrences_old_new (r : bytes) :
  occurrences old_url (new_url ++ r) = occurrences old_url r.
Proof. reflexivity. Qed.

Lemma occurrences_old_old (t : bytes) :
  occurrences old_url (old_url ++ t) = S (occurrences old_url t).
Proof. reflexivity. Qed.

Lemma occurrences_new_old (t : bytes) :
  occurrences new_url (old_url ++ t) = occurrences new_url t.
Proof. reflexivity. Qed.

Lemma scan_new (t : bytes) : scan (new_url ++ t) = new_url ++ scan t.
Proof. reflexivity. Qed.

Lemma scan_old (t : bytes) : scan (old_url ++ t) = new_url ++ scan t.
Proof. apply replace_scan_match. Qed.

Lemma scan_cons (c : byte) (s : bytes) :
  scan (c :: s) =
    if startswith old_url (c :: s)
    then new_url ++ scan (drop 14 s)
    else c :: scan s.
Proof. apply replace_scan_cons. Qed.

(** One step of reading the output of the scan against known bytes: the
    input is not exhausted, no occurrence of [old_url] starts here (the
    output would start with [new_url]), and the next input byte is the
    next output byte. *)
Ltac scan_step H :=
  match type of H with
  | scan ?s = _ =>
      let c := fresh "c" in
      let E := fresh "E" in
      destruct s as [|c s]; [discriminate H|];
      rewrite scan_cons in H;
      destruct (startswith old_url (c :: s)) eqn:E;
      [ try discriminate H | injection H as -> H; try clear E ]
  end.

(** No occurrence of [old_url] starts the output of the scan. *)
Lemma scan_not_startswith_old (s : bytes) : startswith old_url (scan s) = false.
Proof.
  destruct (startswith old_url (scan s)) eqn:H; [exfalso|reflexivity].
  apply startswith_inv in H as [r H].
  destruct s as [|c s]; [discriminate H|].
  rewrite scan_cons in H.
  destruct (startswith old_url (c :: s)) eqn:E0; [discriminate H|].
  injection H as -> H.
  do 14 scan_step H.
  discriminate E0.
Qed.

(** An occurrence of [new_url] that starts the output either was there in
    the input or replaces an occurrence of [old_url] that starts the input. *)
Lemma scan_startswith_new (s : bytes) :
  startswith old_url s = false →
  startswith new_url (scan s) = startswith new_url s.
Proof.
  intros E0.
  destruct (startswith new_url s) eqn:Hs.
  - apply startswith_inv in Hs as [t ->].
    rewrite scan_new. apply startswith_app.
  - destruct (startswith new_url (scan s)) eqn:H; [exfalso|reflexivity].
    apply startswith_inv in H as [r H].
    destruct s as [|c s]; [discriminate H|].
    rewrite scan_cons, E0 in H.
    injection H as -> H.
    do 16 scan_step H.
    discriminate Hs.
Qed.

(** The scan leaves no occurrence of [old_url]. *)
Lemma scan_occurrences_old (s : bytes) : occurrences old_url (scan s) = 0%nat.
Proof.
  remember (length s) as n eqn:Hn.
  revert s Hn. induction n as [n IH] using lt_wf_ind. intros s ->.
  destruct s as [|c s]; [reflexivity|].
  rewrite scan_cons.
  destruct (startswith old_url (c :: s)) eqn:E.
  - rewrite occurrences_old_new.
    apply (IH (length (drop 14 s))); [|reflexivity].
    rewrite length_drop. cbn [length]. lia.
  - change (c :: scan s) with ([c] ++ scan s).
    pose proof (scan_not_startswith_old (c :: s)) as Hc.
    rewrite scan_cons, E in Hc.
    cbn [app occurrences]. rewrite Hc.
    apply (IH (length s)); [cbn [length]; lia|reflexivity].
Qed.

(** The scan turns every occurrence of [old_url] into one of [new_url] and
    keeps the occurrences of [new_url] that were there. *)
Lemma scan_occurrences_new (s : bytes) :
  occurrences new_url (scan s) =
    (occurrences old_url s + occurrences new_url s)%nat.
Proof.
  remember (length s) as n eqn:Hn.
  revert s Hn. induction n as [n IH] using lt_wf_ind. intros s ->.
  destruct s as [|c s]; [reflexivity|].
  destruct (startswith old_url (c :: s)) eqn:E.
  - destruct (startswith_inv _ _ E) as [t Ht]. rewrite Ht.
    rewrite scan_old, occurrences_new_new, occurrences_old_old,
      occurrences_new_old.
    rewrite (IH (length t)); [lia| |reflexivity].
    rewrite Ht. rewrite length_app. cbn [length old_url]. lia.
  - pose proof (scan_startswith_new (c :: s) E) as Hc.
    rewrite scan_cons, E in *.
    cbn [occurrences]. rewrite Hc, E.
    rewrite (IH (length s)); [lia|cbn [length]; lia|reflexivity].
Qed.

End ReplaceFacts.

(** ** Reasoning about computations *)

Lemma bind_Return_inv {A B} (m : M A) (k : A → M B) (w w2 : World) (b : B) :
  bind m k w = (Return b, w2) →
  ∃ a w1, m w = (Return a, w1) ∧ k a w1 = (Return b, w2).
Proof.
  unfold bind. destruct (m w) as [[a|e|c] w1]; intros H; try discriminate H.
  exists a, w1. split; [reflexivity|exact H].
Qed.

Lemma bind_Return {A B} (m : M A) (k : A → M B) (w w1 : World) (a : A) :
  m w = (Return a, w1) → bind m k w = k a w1.
Proof. unfold bind. now intros ->. Qed.

Lemma bind_Raise {A B} (m : M A) (k : A → M B) (w w1 : World) (e : exn) :
  m w = (Raise e, w1) → bind m k w = (Raise e, w1).
Proof. unfold bind. now intros ->. Qed.

Lemma PdfReader_pdf (p : string) (w : World) (d : Pdf.Document) :
  files w !! p = Some (FPdf d) → PdfReader p w = (Return d, w).
Proof. unfold PdfReader. now intros ->. Qed.

Lemma PdfReader_Return_inv (p : string) (w w1 : World) (d : Pdf.Document) :
  PdfReader p w = (Return d, w1) → files w !! p = Some (FPdf d) ∧ w1 = w.
Proof.
  unfold PdfReader. destruct (files w !! p) as [[]|]; intros H;
    try discriminate H.
  now injection H as -> ->.
Qed.

Lemma PdfReader_cases (p : string) (w : World) (f : file) :
  files w !! p = Some f →
  (∃ d, f = FPdf d ∧ PdfReader p w = (Return d, w))
  ∨ (∃ e, (∀ d, f ≠ FPdf d) ∧ PdfReader p w = (Raise e, w)).
Proof.
  intros H. unfold PdfReader. rewrite H.
  destruct f; [left; eauto|right..]; eexists; (split; [discriminate|reflexivity]).
Qed.

Lemma observer_ret {A} (a : A) : observer (ret a).
Proof. intros w w' H. now split. Qed.

Lemma observer_lift {A} (o : outcome A) : observer (lift o).
Proof. intros w w' H. now split. Qed.

Lemma observer_print (l : line) : observer (print l).
Proof. intros w w' H. now split. Qed.

Lemma observer_PdfReader (p : string) : observer (PdfReader p).
Proof.
  intros w w' H. unfold PdfReader. rewrite <- H.
  destruct (files w !! p) as [[]|]; now split.
Qed.

Lemma observer_bind {A B} (m : M A) (k : A → M B) :
  observer m → (∀ a, observer (k a)) → observer (bind m k).
Proof.
  intros Hm Hk w w' H. unfold bind.
  destruct (Hm w w' H) as [H1 H2].
  destruct (Hm w' w (eq_sym H)) as [_ H2'].
  destruct (m w) as [o w1], (m w') as [o' w1']. simpl in *. subst o'.
  destruct o as [a|e|c]; simpl; try (split; [reflexivity|exact H2]).
  destruct (Hk a w1 w1') as [H3 H4]; [congruence|].
  split; [exact H3|congruence].
Qed.

Lemma observer_for_each {A S} (body : A → S → M S) (xs : list A) :
  (∀ x s, observer (body x s)) → ∀ s, observer (for_each body xs s).
Proof.
  intros Hbody. induction xs as [|x xs IH]; intros s; simpl.
  - apply observer_ret.
  - apply observer_bind; [apply Hbody|exact IH].
Qed.

Lemma observer_path_exists (p : string) : observer (path_exists p).
Proof. intros w w' H. unfold path_exists. simpl. now rewrite H. Qed.

Lemma observer_drawImage c image x y width height :
  observer (drawImage c image x y width height).
Proof.
  intros w w' H. unfold drawImage. rewrite <- H.
  destruct (files w !! image) as [[]|]; now split.
Qed.

Lemma observer_try_draw c image_path footer_x footer_y image_size :
  observer (try_draw c image_path footer_x footer_y image_size).
Proof.
  unfold try_draw. destruct (is_svg image_path); [apply observer_ret|].
  intros w w' H.
  destruct (observer_drawImage c image_path
              (footer_x - inject_Z image_size)%Q footer_y image_size image_size
              w w' H) as [H1 H2].
  destruct (observer_drawImage c image_path
              (footer_x - inject_Z image_size)%Q footer_y image_size image_size
              w' w (eq_sym H)) as [_ H2'].
  destruct (drawImage _ _ _ _ _ _ w) as [o w1],
           (drawImage _ _ _ _ _ _ w') as [o' w1'].
  simpl in *. subst o'. destruct o as [a|e|k]; simpl; now split.
Qed.

Lemma observer_rotate_pages p rotations : observer (rotate_pages p rotations).
Proof.
  unfold rotate_pages. apply observer_bind; [apply observer_PdfReader|].
  intros reader. apply observer_bind; [|intros; apply observer_ret].
  apply observer_for_each. intros i s.
  destruct (Pdf.pages reader !! i); [|apply observer_lift].
  apply observer_bind; [|intros; apply observer_ret].
  destruct (rotations !! _); [apply observer_lift|apply observer_ret].
Qed.

Lemma observer_replace_text_in_pdf p old new :
  observer (replace_text_in_pdf p old new).
Proof.
  unfold replace_text_in_pdf. apply observer_bind; [apply observer_PdfReader|].
  intros reader. apply observer_bind; [|intros; apply observer_ret].
  apply observer_for_each. intros page [objs writer]. unfold replace_page.
  apply observer_bind; [apply observer_lift|].
  intros [[ref content]|]; apply observer_ret.
Qed.

Lemma observer_add_footer_image p image : observer (add_footer_image p image).
Proof.
  unfold add_footer_image. apply observer_bind; [apply observer_PdfReader|].
  intros reader. apply observer_bind; [|intros; apply observer_ret].
  apply observer_for_each. intros page writer. unfold footer_page.
  apply observer_bind; [apply observer_try_draw|].
  intros c. destruct (Pdf.save c !! 0%nat);
    [apply observer_ret|apply observer_lift].
Qed.

Lemma observer_parse_rotations spec : observer (parse_rotations spec).
Proof.
  unfold parse_rotations. apply observer_for_each. intros rotation rotations.
  unfold parse_rotation. apply observer_bind; [apply observer_lift|].
  intros [page angle]. apply observer_bind; [apply observer_lift|].
  intros a. apply observer_bind; [apply observer_lift|].
  intros p. apply observer_ret.
Qed.

Lemma stateless_ret {A} (a : A) : stateless (ret a).
Proof. now exists (Return a). Qed.

Lemma stateless_lift {A} (o : outcome A) : stateless (lift o).
Proof. now exists o. Qed.

Lemma stateless_bind {A B} (m : M A) (k : A → M B) :
  stateless m → (∀ a, stateless (k a)) → stateless (bind m k).
Proof.
  intros [o Hm] Hk. destruct o as [a|e|c].
  - destruct (Hk a) as [o' Hka]. exists o'. intros w.
    unfold bind. now rewrite Hm, Hka.
  - exists (Raise e). intros w. unfold bind. now rewrite Hm.
  - exists (SystemExit c). intros w. unfold bind. now rewrite Hm.
Qed.

Lemma stateless_for_each {A S} (body : A → S → M S) (xs : list A) :
  (∀ x s, stateless (body x s)) → ∀ s, stateless (for_each body xs s).
Proof.
  intros Hbody. induction xs as [|x xs IH]; intros s; simpl.
  - apply stateless_ret.
  - apply stateless_bind; [apply Hbody|exact IH].
Qed.

Lemma stateless_world {A} (m : M A) (w : World) :
  stateless m → m w = ((m w).1, w).
Proof. intros [o H]. now rewrite H. Qed.

Lemma stateless_parse_rotations spec : stateless (parse_rotations spec).
Proof.
  unfold parse_rotations. apply stateless_for_each. intros rotation rotations.
  unfold parse_rotation. apply stateless_bind; [apply stateless_lift|].
  intros [page angle]. apply stateless_bind; [apply stateless_lift|].
  intros a. apply stateless_bind; [apply stateless_lift|].
  intros p. apply stateless_ret.
Qed.

Lemma path_exists_Some (p : string) (w : World) :
  is_Some (files w !! p) → path_exists p w = (Return true, w).
Proof.
  intros H. unfold path_exists. now rewrite bool_decide_eq_true_2.
Qed.

Lemma path_exists_None (p : string) (w : World) :
  files w !! p = None → path_exists p w = (Return false, w).
Proof.
  intros H. unfold path_exists. rewrite bool_decide_eq_false_2; [reflexivity|].
  rewrite H. intros [x Hx]. discriminate Hx.
Qed.

(** [main] when the input path exists: the [try] statement and its
    handler. *)
Lemma main_input_found (args : Args) (w : World) :
  is_Some (files w !! input args) →
  main args w =
    match main_try args w with
    | (Raise e, w') =>
        (SystemExit 1,
         {| files := files w';
            stdout := stdout w' ++ [TextExn "Error processing PDF: " e] |})
    | r => r
    end.
Proof.
  intros H. unfold main.
  rewrite (bind_Return _ _ _ _ _ (path_exists_Some _ _ H)). simpl.
  now destruct (main_try args w) as [[a|e|c] w'].
Qed.

(** ** The driver: missing input, no transform, malformed rotate *)

Lemma missing_input_lemma (args : Args) (w : World) :
  files w !! input args = None →
  exit_code (main args w).1 = 1
  ∧ stdout (main args w).2 =
      stdout w ++ [Text ("Error: Input file not found: " ++ input args)]
  ∧ files (main args w).2 = files w.
Proof.
  intros H. unfold main.
  rewrite (bind_Return _ _ _ _ _ (path_exists_None _ _ H)). simpl.
  repeat split.
Qed.

(** C9. When the [--input] path does not exist, the process prints an
    error that names the path, exits with code 1, and leaves the file
    system as it was: no output file is created. *)
Theorem missing_input_exits_1 (args : Args) (w : World) :
  files w !! input args = None →
  exit_code (main args w).1 = 1
  ∧ stdout (main args w).2 =
      stdout w ++ [Text ("Error: Input file not found: " ++ input args)]
  ∧ files (main args w).2 = files w.
Proof. exact (missing_input_lemma args w). Qed.

Lemma missing_input_exits_1_witness :
  exit_code (main {| input := "missing.pdf"; output := "out.pdf";
                     rotate := Some "1:90"; replace_url := None;
                     footer_image := None |} Sample.world).1 = 1
  ∧ stdout (main {| input := "missing.pdf"; output := "out.pdf";
                    rotate := Some "1:90"; replace_url := None;
                    footer_image := None |} Sample.world).2 =
      stdout Sample.world ++ [Text ("Error: Input file not found: " ++ "missing.pdf")]
  ∧ files (main {| input := "missing.pdf"; output := "out.pdf";
                   rotate := Some "1:90"; replace_url := None;
                   footer_image := None |} Sample.world).2 = files Sample.world.
Proof.
  apply (missing_input_exits_1
           {| input := "missing.pdf"; output := "out.pdf";
              rotate := Some "1:90"; replace_url := None;
              footer_image := None |} Sample.world).
  reflexivity.
Defined.

(** C10. When the input exists and none of [--rotate], [--replace-url],
    [--footer-image] is given, the run prints the generic error and exits
    with code 1, and the only thing it can do to the file system is to
    leave the output path as an empty file: no copy of the input is
    written. When the input is a readable PDF and the output can be opened,
    it is the write step that raises, the bare reader having no [write]. *)
Theorem no_transform_no_copy (args : Args) (w : World) :
  is_Some (files w !! input args) →
  rotate args = None → replace_url args = None → footer_image args = None →
  exit_code (main args w).1 = 1
  ∧ (∃ e, stdout (main args w).2 =
            stdout w ++ [TextExn "Error processing PDF: " e])
  ∧ (files (main args w).2 = files w
     ∨ files (main args w).2 = <[output args := FEmpty]> (files w))
  ∧ (∀ d, files w !! input args = Some (FPdf d) →
          holds_dir w (output args) = false →
          main args w =
            (SystemExit 1,
             {| files := <[output args := FEmpty]> (files w);
                stdout := stdout w ++
                  [TextExn "Error processing PDF: "
                     (AttributeError "'PdfReader' object has no attribute 'write'")] |})).
Proof.
  intros Hin Hr Hu Hf. rewrite (main_input_found _ _ Hin).
  unfold main_try. rewrite Hr, Hu, Hf.
  unfold bind, ret, PdfReader, open_wb, write_working, lift.
  destruct (files w !! input args) as [[d| | | |]|] eqn:E; simpl;
    try (repeat split; eauto; intros; discriminate).
  - destruct (files w !! output args) as [[]|] eqn:Eo; simpl;
      repeat split; eauto; intros d' Hd' Ho; try reflexivity;
      unfold holds_dir in Ho; rewrite Eo in Ho; discriminate Ho.
Qed.

Lemma no_transform_no_copy_witness :
  main (Sample.args None None None) Sample.world =
    (SystemExit 1,
     {| files := <["out.pdf" := FEmpty]> (files Sample.world);
        stdout := [TextExn "Error processing PDF: "
                     (AttributeError "'PdfReader' object has no attribute 'write'")] |}).
Proof.
  refine (proj2 (proj2 (proj2
    (no_transform_no_copy (Sample.args None None None) Sample.world
       _ eq_refl eq_refl eq_refl))) Sample.doc _ _).
  - exists (FPdf Sample.doc). reflexivity.
  - reflexivity.
  - reflexivity.
Defined.

(** Strings outside the grammar [page:angle[,page:angle...]] that do not
    make the run fail. An empty [--rotate] string would make the parsing
    loop raise, but [if args.rotate:] is false for it and the loop is
    skipped. White space around a number, a sign, an underscore between
    digits and the digits of other scripts are all taken by [int]. In each
    case the run succeeds and writes the output. With a missing input the
    run stops at the existence test whatever [--rotate] holds, and the line
    printed is not the generic one. *)
Lemma rotate_outside_grammar_not_rejected :
  ((parse_rotations "" Sample.world).1 =
     Raise (ValueError "not enough values to unpack (expected 2, got 1)")
   ∧ exit_code
       (main (Sample.args (Some "") (Some ("team-wiki.local", "team-wiki.etc.com"))
                None) Sample.world).1 = 0
   ∧ is_Some
       (files (main (Sample.args (Some "")
                       (Some ("team-wiki.local", "team-wiki.etc.com")) None)
                 Sample.world).2 !! "out.pdf"))
  ∧ ((parse_rotations " 1 : +9_0 ,2:９０" Sample.world).1 =
       Return {[ 1 := 90; 2 := 90 ]}
     ∧ exit_code
         (main (Sample.args (Some " 1 : +9_0 ,2:９０") None None) Sample.world).1 = 0
     ∧ is_Some
         (files (main (Sample.args (Some " 1 : +9_0 ,2:９０") None None)
                   Sample.world).2 !! "out.pdf"))
  ∧ main {| input := "nowhere.pdf"; output := "out.pdf"; rotate := Some "1-90";
            replace_url := None; footer_image := None |} Sample.world =
      (SystemExit 1,
       {| files := files Sample.world;
          stdout := stdout Sample.world ++
            [Text "Error: Input file not found: nowhere.pdf"] |}).
Proof.
  repeat split; try reflexivity; vm_compute; eexists; reflexivity.
Qed.

(** An entry that the loop does not take makes it raise there, whatever
    the mapping built so far; an entry that it takes sets one key. *)
Lemma parse_rotation_bad (rotation : string) :
  entry_ok rotation = false →
  ∃ e, is_ValueError e = true
    ∧ ∀ rotations w, parse_rotation rotation rotations w = (Raise e, w).
Proof.
  unfold entry_ok, parse_rotation, bind, lift, ret, unpack2, py_int.
  destruct (PyStr.split ":" rotation) as [|page [|angle [|x rest]]]; intros H.
  - eexists. split; [|intros rotations w; reflexivity]. reflexivity.
  - eexists. split; [|intros rotations w; reflexivity]. reflexivity.
  - destruct (PyStr.int angle) as [a|].
    + destruct (PyStr.int page) as [p|]; [discriminate H|].
      eexists. split; [|intros rotations w; reflexivity]. reflexivity.
    + eexists. split; [|intros rotations w; reflexivity]. reflexivity.
  - eexists. split; [|intros rotations w; reflexivity]. reflexivity.
Qed.

Lemma parse_rotation_good (rotation : string) :
  entry_ok rotation = true →
  ∃ p a, ∀ rotations w,
    parse_rotation rotation rotations w = (Return (<[p := a]> rotations), w).
Proof.
  unfold entry_ok, parse_rotation, bind, lift, ret, unpack2, py_int.
  destruct (PyStr.split ":" rotation) as [|page [|angle [|x rest]]];
    try discriminate.
  destruct (PyStr.int page) as [p|]; [|discriminate].
  destruct (PyStr.int angle) as [a|]; [|discriminate].
  intros _. now exists p, a.
Qed.

(** The parsing loop raises at the first entry it does not take. *)
Lemma parse_loop_bad (toks : list string) :
  forallb entry_ok toks = false →
  ∃ e, is_ValueError e = true
    ∧ ∀ rotations w, for_each parse_rotation toks rotations w = (Raise e, w).
Proof.
  induction toks as [|tok toks IH]; [discriminate|].
  cbn [forallb]. destruct (entry_ok tok) eqn:E; simpl; intros H.
  - destruct (parse_rotation_good tok E) as (p & a & Hstep).
    destruct (IH H) as (e & He & Hloop). exists e. split; [exact He|].
    intros rotations w. cbn [for_each].
    now rewrite (bind_Return _ _ _ _ _ (Hstep rotations w)).
  - destruct (parse_rotation_bad tok E) as (e & He & Hstep).
    exists e. split; [exact He|]. intros rotations w. cbn [for_each].
    now rewrite (bind_Raise _ _ _ _ _ (Hstep rotations w)).
Qed.

(** The other way round: a list of entries that are all taken is parsed
    to a mapping. *)
Lemma parse_loop_good (toks : list string) (rotations : gmap Z Z) :
  forallb entry_ok toks = true →
  ∃ r, ∀ w, for_each parse_rotation toks rotations w = (Return r, w).
Proof.
  revert rotations. induction toks as [|tok toks IH]; intros rotations H.
  - now exists rotations.
  - cbn [forallb] in H. apply andb_prop in H as [E H].
    destruct (parse_rotation_good tok E) as (p & a & Hstep).
    destruct (IH (<[p := a]> rotations) H) as (r & Hloop). exists r.
    intros w. cbn [for_each].
    now rewrite (bind_Return _ _ _ _ _ (Hstep rotations w)).
Qed.

(** C8, amended. Let [args.rotate], as [parse_args] hands it to [main], be
    a non-empty string one of whose comma-separated entries does not split
    at the colon into exactly two fields, or has a field that [int] does
    not accept. Then the run exits with code 1 and leaves the file system
    as it was: no output file is written. When the input is a readable
    PDF, the [ValueError] of the parse is not handled where it is raised:
    it is the exception that the generic handler prints. *)
Theorem malformed_rotate_aborts (args : Args) (w : World) (spec : string) :
  rotate args = Some spec →
  PyStr.truthy spec = true →
  rotate_spec_ok spec = false →
  exit_code (main args w).1 = 1
  ∧ files (main args w).2 = files w
  ∧ (∀ d, files w !! input args = Some (FPdf d) →
       ∃ e, is_ValueError e = true
         ∧ main args w =
             (SystemExit 1,
              {| files := files w;
                 stdout := stdout w ++ [TextExn "Error processing PDF: " e] |})).
Proof.
  intros Hr Ht Hbad.
  destruct (parse_loop_bad _ Hbad) as (e & He & Hloop).
  assert (Hw : parse_rotations spec w = (Raise e, w)) by apply Hloop.
  destruct (files w !! input args) as [f|] eqn:E.
  - rewrite main_input_found by (rewrite E; eauto).
    unfold main_try. rewrite Hr, Ht.
    destruct (PdfReader_cases (input args) w f E) as [[d [-> Hd]]|[e' [Hf He']]].
    + rewrite (bind_Return _ _ _ _ _ Hd).
      rewrite (bind_Raise _ _ _ _ _ (bind_Raise _ _ _ _ _ Hw)).
      simpl. repeat split. intros d' _. now exists e.
    + rewrite (bind_Raise _ _ _ _ _ He'). simpl.
      repeat split. intros d Hd. injection Hd as ->. now contradiction (Hf d).
  - destruct (missing_input_lemma args w E) as (H1 & _ & H3).
    repeat split; [exact H1|exact H3|intros; discriminate].
Qed.

Lemma malformed_rotate_aborts_witness :
  ∃ e, is_ValueError e = true
    ∧ main (Sample.args (Some "1:90,x:180") None None) Sample.world =
        (SystemExit 1,
         {| files := files Sample.world;
            stdout := stdout Sample.world ++
              [TextExn "Error processing PDF: " e] |}).
Proof.
  exact (proj2 (proj2
    (malformed_rotate_aborts (Sample.args (Some "1:90,x:180") None None)
       Sample.world "1:90,x:180" eq_refl eq_refl eq_refl)) Sample.doc eq_refl).
Defined.

(** ** Rotation *)

Lemma for_each_ext {A S} (body1 body2 : A → S → M S) (xs : list A) (s : S) (w : World) :
  (∀ x s w, x ∈ xs → body1 x s w = body2 x s w) →
  for_each body1 xs s w = for_each body2 xs s w.
Proof.
  revert s w. induction xs as [|x xs IH]; intros s w H; [reflexivity|].
  simpl. unfold bind. rewrite H by left.
  destruct (body2 x s w) as [[s'|e|c] w']; try reflexivity.
  apply IH. intros y s'' w'' Hy. apply H. now right.
Qed.

(** The rotation loop over the indices of the pages [suf] that follow the
    pages [pre] already done. *)
Lemma rotate_loop (rotations : gmap Z Z) (pre suf writer : list Pdf.Page) (w : World) :
  (∀ j page angle, suf !! j = Some page →
     rotations !! (Z.of_nat (length pre + j) + 1) = Some angle →
     angle mod 90 = 0) →
  for_each
    (fun (page_num : nat) (writer : list Pdf.Page) =>
       match (pre ++ suf) !! page_num with
       | None => lift (Raise IndexError)
       | Some page =>
           let! page :=
             match rotations !! (Z.of_nat page_num + 1) with
             | Some angle => lift (Pdf.rotate angle page)
             | None => ret page
             end in
           ret (writer ++ [page])
       end)
    (seq (length pre) (length suf)) writer w
  = (Return (writer ++ imap (fun j => rotated rotations (length pre + j)) suf), w).
Proof.
  revert pre writer. induction suf as [|page suf IH]; intros pre writer Hangles.
  - simpl. now rewrite app_nil_r.
  - cbn [length seq for_each]. unfold bind at 1.
    rewrite list_lookup_middle by reflexivity.
    assert (Hstep :
      (let! page0 :=
         match rotations !! (Z.of_nat (length pre) + 1) with
         | Some angle => lift (Pdf.rotate angle page)
         | None => ret page
         end in ret (writer ++ [page0])) w
      = (Return (writer ++ [rotated rotations (length pre) page]), w)).
    { unfold rotated.
      destruct (rotations !! (Z.of_nat (length pre) + 1)) as [angle|] eqn:E;
        [|reflexivity].
      unfold bind, lift, Pdf.rotate.
      rewrite (Hangles 0%nat page angle); [reflexivity|reflexivity|].
      now rewrite Nat.add_0_r. }
    rewrite Hstep.
    specialize (IH (pre ++ [page]) (writer ++ [rotated rotations (length pre) page])).
    rewrite length_app in IH. cbn [length] in IH.
    rewrite Nat.add_1_r in IH. rewrite <- app_assoc in IH. cbn [app] in IH.
    rewrite IH.
    + cbn [imap]. rewrite <- app_assoc. cbn [app]. rewrite Nat.add_0_r.
      do 4 f_equal. apply imap_ext. intros j x _. simpl.
      now rewrite Nat.add_succ_r.
    + intros j page' angle Hj Hrot. apply (Hangles (S j) page' angle Hj).
      now rewrite Nat.add_succ_r.
Qed.

Lemma rotate_pages_ok (w : World) (pdf_path : string) (doc : Pdf.Document)
    (rotations : gmap Z Z) :
  files w !! pdf_path = Some (FPdf doc) →
  (∀ i page angle, Pdf.pages doc !! i = Some page →
     rotations !! (Z.of_nat i + 1) = Some angle → angle mod 90 = 0) →
  rotate_pages pdf_path rotations w =
    (Return {| Pdf.pages := imap (rotated rotations) (Pdf.pages doc);
               Pdf.objects := Pdf.objects doc |}, w).
Proof.
  intros Hfile Hangles. unfold rotate_pages.
  rewrite (bind_Return _ _ _ _ _ (PdfReader_pdf _ _ _ Hfile)).
  pose proof (rotate_loop rotations [] (Pdf.pages doc) [] w) as Hloop.
  cbn [app length] in Hloop.
  rewrite (bind_Return _ _ _ _ _ (Hloop Hangles)). reflexivity.
Qed.

(** A key above the page count is never looked up. *)
Lemma rotate_pages_delete (w : World) (pdf_path : string) (rotations : gmap Z Z)
    (doc : Pdf.Document) (k : Z) :
  files w !! pdf_path = Some (FPdf doc) →
  Z.of_nat (length (Pdf.pages doc)) < k →
  rotate_pages pdf_path (delete k rotations) w = rotate_pages pdf_path rotations w.
Proof.
  intros Hfile Hk. unfold rotate_pages.
  rewrite !(bind_Return _ _ _ _ _ (PdfReader_pdf _ _ _ Hfile)).
  unfold bind at 1 3. rewrite (for_each_ext _
    (fun (page_num : nat) (writer : list Pdf.Page) =>
       match Pdf.pages doc !! page_num with
       | None => lift (Raise IndexError)
       | Some page =>
           let! page :=
             match rotations !! (Z.of_nat page_num + 1) with
             | Some angle => lift (Pdf.rotate angle page)
             | None => ret page
             end in
           ret (writer ++ [page])
       end)); [reflexivity|].
  intros i s w' Hi. apply elem_of_seq in Hi.
  rewrite lookup_delete_ne by lia. reflexivity.
Qed.

Lemma right_angles_lookup (rotations : gmap Z Z) (n i : nat) (angle : Z) :
  right_angles rotations n = true → (i < n)%nat →
  rotations !! (Z.of_nat i + 1) = Some angle → angle mod 90 = 0.
Proof.
  unfold right_angles. rewrite forallb_forall. intros H Hi Hrot.
  specialize (H i). rewrite Hrot in H. apply Z.eqb_eq, H.
  apply in_seq. lia.
Qed.

(** An angle of 45 degrees is an angle, but PyPDF2 refuses it: the transform
    raises instead of returning a document. *)
Lemma rotate_pages_45_raises :
  rotate_pages "in.pdf" {[ 1 := 45 ]} Sample.world =
    (Raise (ValueError "Rotation angle must be a multiple of 90"), Sample.world).
Proof. reflexivity. Qed.

(** C3, amended. For every document and every rotation mapping whose angles
    for the page numbers of the document are multiples of 90, the rotation
    transform returns a document of the same length; a page whose 1-indexed
    number is a key has its stored rotation increased by the mapped angle
    (so it equals input rotation plus angle modulo 360) and is otherwise
    unchanged; a page whose number is not a key is unchanged; and a key
    above the page count has no effect: the result is the same without
    it. *)
Theorem rotate_pages_spec (w : World) (pdf_path : string) (doc : Pdf.Document)
    (rotations : gmap Z Z) :
  files w !! pdf_path = Some (FPdf doc) →
  right_angles rotations (length (Pdf.pages doc)) = true →
  ∃ out,
    rotate_pages pdf_path rotations w = (Return out, w)
    ∧ length (Pdf.pages out) = length (Pdf.pages doc)
    ∧ (∀ i page, Pdf.pages doc !! i = Some page →
         ∃ page', Pdf.pages out !! i = Some page' ∧
           match rotations !! (Z.of_nat i + 1) with
           | Some angle =>
               Pdf.Rotate page' = Pdf.Rotate page + angle
               ∧ Pdf.Rotate page' mod 360 = (Pdf.Rotate page + angle) mod 360
               ∧ Pdf.mediabox page' = Pdf.mediabox page
               ∧ Pdf.Contents page' = Pdf.Contents page
               ∧ Pdf.merged page' = Pdf.merged page
           | None => page' = page
           end)
    ∧ (∀ k, Z.of_nat (length (Pdf.pages doc)) < k →
         rotate_pages pdf_path (delete k rotations) w =
         rotate_pages pdf_path rotations w).
Proof.
  intros Hfile Hangles.
  exists {| Pdf.pages := imap (rotated rotations) (Pdf.pages doc);
            Pdf.objects := Pdf.objects doc |}.
  split; [|split; [|split]].
  - apply rotate_pages_ok; [exact Hfile|].
    intros i page angle Hi. apply (right_angles_lookup _ _ _ _ Hangles).
    now apply lookup_lt_Some in Hi.
  - simpl. apply length_imap.
  - intros i page Hi. exists (rotated rotations i page). split.
    + simpl. rewrite list_lookup_imap, Hi. reflexivity.
    + unfold rotated. destruct (rotations !! (Z.of_nat i + 1)); simpl; auto.
  - intros k Hk. now apply (rotate_pages_delete w pdf_path rotations doc k).
Qed.

Lemma rotate_pages_spec_witness :
  ∃ out,
    rotate_pages "in.pdf" {[ 1 := 90; 7 := 45 ]} Sample.world = (Return out, Sample.world)
    ∧ length (Pdf.pages out) = length (Pdf.pages Sample.doc)
    ∧ (∀ i page, Pdf.pages Sample.doc !! i = Some page →
         ∃ page', Pdf.pages out !! i = Some page' ∧
           match ({[ 1 := 90; 7 := 45 ]} : gmap Z Z) !! (Z.of_nat i + 1) with
           | Some angle =>
               Pdf.Rotate page' = Pdf.Rotate page + angle
               ∧ Pdf.Rotate page' mod 360 = (Pdf.Rotate page + angle) mod 360
               ∧ Pdf.mediabox page' = Pdf.mediabox page
               ∧ Pdf.Contents page' = Pdf.Contents page
               ∧ Pdf.merged page' = Pdf.merged page
           | None => page' = page
           end)
    ∧ (∀ k, Z.of_nat (length (Pdf.pages Sample.doc)) < k →
         rotate_pages "in.pdf" (delete k {[ 1 := 90; 7 := 45 ]}) Sample.world =
         rotate_pages "in.pdf" {[ 1 := 90; 7 := 45 ]} Sample.world).
Proof.
  apply (rotate_pages_spec Sample.world "in.pdf" Sample.doc {[ 1 := 90; 7 := 45 ]}).
  - reflexivity.
  - reflexivity.
Defined.

(** ** Text substitution *)

Lemma replace_loop_ok (old new : string) (ps writer : list Pdf.Page)
    (objs : gmap nat Py.bytes) (w : World) :
  forallb has_contents_key ps = true →
  for_each (replace_page old new) ps (objs, writer) w =
    (Return (replace_store (Py.replace (Py.encode_utf8 old) (Py.encode_utf8 new)) ps objs,
             writer ++ ps), w).
Proof.
  revert objs writer. induction ps as [|page ps IH]; intros objs writer Hkeys.
  - simpl. now rewrite app_nil_r.
  - cbn [forallb] in Hkeys. apply andb_prop in Hkeys as [Hpage Hps].
    unfold has_contents_key in Hpage.
    cbn [for_each replace_store foldl]. unfold bind at 1.
    unfold replace_page, bind, lift, Pdf.getitem_Contents.
    destruct (Pdf.Contents page) as [ref|]; [|discriminate Hpage].
    destruct (objs !! ref) as [data|]; simpl;
      rewrite IH by exact Hps; now rewrite <- app_assoc.
Qed.

(** The loop stops with [KeyError] at the first page without a
    ["/Contents"] entry. *)
Lemma replace_loop_KeyError (old new : string) (ps writer : list Pdf.Page)
    (objs : gmap nat Py.bytes) (w : World) (i : nat) (page : Pdf.Page) :
  ps !! i = Some page → Pdf.Contents page = None →
  for_each (replace_page old new) ps (objs, writer) w =
    (Raise (KeyError "/Contents"), w).
Proof.
  revert i objs writer. induction ps as [|p ps IH]; intros i objs writer Hi Hnone.
  - discriminate Hi.
  - cbn [for_each]. unfold bind at 1.
    unfold replace_page, bind, lift, Pdf.getitem_Contents.
    destruct (Pdf.Contents p) as [ref|] eqn:E.
    + destruct i as [|i]; [simpl in Hi; congruence|].
      destruct (objs !! ref) as [data|]; simpl; now apply (IH i).
    + reflexivity.
Qed.

Lemma replace_store_cons (f : Py.bytes → Py.bytes) (page : Pdf.Page)
    (ps : list Pdf.Page) (objs : gmap nat Py.bytes) :
  replace_store f (page :: ps) objs =
    replace_store f ps
      match Pdf.Contents page with
      | Some r => match objs !! r with
                  | Some data => <[r := f data]> objs
                  | None => objs
                  end
      | None => objs
      end.
Proof. reflexivity. Qed.

Lemma replace_store_lookup (f : Py.bytes → Py.bytes) (ps : list Pdf.Page)
    (objs : gmap nat Py.bytes) (ref : nat) :
  (∀ data, f (f data) = f data) →
  replace_store f ps objs !! ref =
    if decide (Some ref ∈ Pdf.Contents <$> ps)
    then f <$> objs !! ref
    else objs !! ref.
Proof.
  intros Hidem. revert objs. induction ps as [|page ps IH]; intros objs.
  - cbn [replace_store foldl]. rewrite fmap_nil. case_decide as H; [|reflexivity].
    now apply elem_of_nil in H.
  - rewrite replace_store_cons, IH.
    rewrite fmap_cons.
    assert (Hstep :
      match Pdf.Contents page with
      | Some r => match objs !! r with
                  | Some data => <[r := f data]> objs
                  | None => objs
                  end
      | None => objs
      end !! ref =
      if decide (Pdf.Contents page = Some ref) then f <$> objs !! ref
      else objs !! ref).
    { destruct (Pdf.Contents page) as [r|]; [|now rewrite decide_False].
      destruct (decide (r = ref)) as [->|Hne].
      - rewrite decide_True by reflexivity.
        destruct (objs !! ref) as [data|] eqn:Er;
          [now rewrite lookup_insert_eq|now rewrite Er].
      - rewrite decide_False by congruence.
        destruct (objs !! r); [now rewrite lookup_insert_ne|reflexivity]. }
    rewrite Hstep. clear Hstep.
    repeat case_decide; try reflexivity;
      try (destruct (objs !! ref); simpl; now rewrite ?Hidem);
      exfalso;
      repeat match goal with
             | H : _ ∉ _ :: _ |- _ => apply not_elem_of_cons in H as [? ?]
             | H : _ ∈ _ :: _ |- _ => apply elem_of_cons in H as [?|?]
             end;
      congruence || contradiction.
Qed.

(** C2 fails on the code: a page without a ["/Contents"] entry is not
    passed through. The test [page["/Contents"] is not None] subscripts the
    page dictionary, which raises [KeyError] for the missing key, and the
    transform ends there. *)
Theorem replace_text_missing_contents_raises (w : World) (pdf_path : string)
    (doc : Pdf.Document) (old_text new_text : string) (i : nat) (page : Pdf.Page) :
  files w !! pdf_path = Some (FPdf doc) →
  Pdf.pages doc !! i = Some page →
  Pdf.Contents page = None →
  replace_text_in_pdf pdf_path old_text new_text w =
    (Raise (KeyError "/Contents"), w).
Proof.
  intros Hfile Hi Hnone. unfold replace_text_in_pdf.
  rewrite (bind_Return _ _ _ _ _ (PdfReader_pdf _ _ _ Hfile)).
  apply bind_Raise. now apply (replace_loop_KeyError _ _ _ _ _ _ i page).
Qed.

Lemma replace_text_missing_contents_raises_witness :
  replace_text_in_pdf "blank.pdf" "team-wiki.local" "team-wiki.etc.com" Sample.world =
    (Raise (KeyError "/Contents"), Sample.world).
Proof.
  apply (replace_text_missing_contents_raises Sample.world "blank.pdf"
           Sample.blank_doc "team-wiki.local" "team-wiki.etc.com" 0
           (Sample.page 0 None)).
  - reflexivity.
  - reflexivity.
  - reflexivity.
Defined.

Lemma url_replace_scan (data : Py.bytes) :
  Py.replace (Py.encode_utf8 "team-wiki.local") (Py.encode_utf8 "team-wiki.etc.com") data
  = Py.replace_scan old_url new_url 0 data.
Proof. reflexivity. Qed.

Lemma url_replace_idem (data : Py.bytes) :
  Py.replace_scan old_url new_url 0 (Py.replace_scan old_url new_url 0 data)
  = Py.replace_scan old_url new_url 0 data.
Proof.
  apply (replace_scan_absent "t"%byte (tl old_url) new_url).
  apply scan_occurrences_old.
Qed.

(** A stream that already holds the new literal: after the substitution
    the new literal occurs twice, the old one occurred once. *)
Lemma replace_url_count_differs :
  ∃ out data data',
    replace_text_in_pdf "in.pdf" "team-wiki.local" "team-wiki.etc.com" Sample.world
      = (Return out, Sample.world)
    ∧ Pdf.objects Sample.doc !! 2%nat = Some data
    ∧ Pdf.objects out !! 2%nat = Some data'
    ∧ Py.occurrences old_url data = 1%nat
    ∧ Py.occurrences new_url data' = 2%nat.
Proof.
  eexists _, _, _. repeat split; reflexivity.
Qed.

Lemma missing_key_lookup (ps : list Pdf.Page) :
  forallb has_contents_key ps = false →
  ∃ i page, ps !! i = Some page ∧ Pdf.Contents page = None.
Proof.
  induction ps as [|p ps IH]; [discriminate|].
  cbn [forallb]. unfold has_contents_key at 1.
  destruct (Pdf.Contents p) eqn:E; simpl.
  - intros H. destruct (IH H) as (i & page & Hi & Hnone).
    now exists (S i), page.
  - intros _. now exists 0%nat, p.
Qed.

Lemma replace_text_in_pdf_ok (w : World) (pdf_path old new : string)
    (doc : Pdf.Document) :
  files w !! pdf_path = Some (FPdf doc) →
  forallb has_contents_key (Pdf.pages doc) = true →
  replace_text_in_pdf pdf_path old new w =
    (Return {| Pdf.pages := Pdf.pages doc;
               Pdf.objects :=
                 replace_store
                   (Py.replace (Py.encode_utf8 old) (Py.encode_utf8 new))
                   (Pdf.pages doc) (Pdf.objects doc) |}, w).
Proof.
  intros Hfile Hkeys. unfold replace_text_in_pdf.
  rewrite (bind_Return _ _ _ _ _ (PdfReader_pdf _ _ _ Hfile)).
  rewrite (bind_Return _ _ _ _ _ (replace_loop_ok old new _ [] _ w Hkeys)).
  reflexivity.
Qed.

(** A call of the substitution that returns was made on a document whose
    pages all have a ["/Contents"] entry, and what it returns is that
    document with the replacement made in its streams. *)
Lemma replace_text_in_pdf_Return_inv (w w' : World) (pdf_path old new : string)
    (doc out : Pdf.Document) :
  files w !! pdf_path = Some (FPdf doc) →
  replace_text_in_pdf pdf_path old new w = (Return out, w') →
  forallb has_contents_key (Pdf.pages doc) = true
  ∧ w' = w
  ∧ out = {| Pdf.pages := Pdf.pages doc;
             Pdf.objects :=
               replace_store
                 (Py.replace (Py.encode_utf8 old) (Py.encode_utf8 new))
                 (Pdf.pages doc) (Pdf.objects doc) |}.
Proof.
  intros Hfile Hret.
  destruct (forallb has_contents_key (Pdf.pages doc)) eqn:Hkeys.
  - rewrite (replace_text_in_pdf_ok w pdf_path old new doc Hfile Hkeys) in Hret.
    injection Hret as <- <-. now repeat split.
  - exfalso. apply missing_key_lookup in Hkeys as (i & page & Hi & Hnone).
    unfold replace_text_in_pdf in Hret.
    rewrite (bind_Return _ _ _ _ _ (PdfReader_pdf _ _ _ Hfile)) in Hret.
    rewrite (bind_Raise _ _ _ _ _
               (replace_loop_KeyError old new _ [] _ w i page Hi Hnone)) in Hret.
    discriminate Hret.
Qed.

(** C4, amended. Whenever the substitution of "team-wiki.local" by
    "team-wiki.etc.com" returns a document, it has the pages of the input,
    and the content stream of every page is the replacement of its
    original data: it has no occurrence of the old literal left, and the
    new literal occurs as many times as the old one did plus as many times
    as the new one already did. *)
Theorem replace_url_spec (w w' : World) (pdf_path : string)
    (doc out : Pdf.Document) :
  files w !! pdf_path = Some (FPdf doc) →
  replace_text_in_pdf pdf_path "team-wiki.local" "team-wiki.etc.com" w
    = (Return out, w') →
  Pdf.pages out = Pdf.pages doc
  ∧ (∀ i page ref data,
       Pdf.pages doc !! i = Some page →
       Pdf.Contents page = Some ref →
       Pdf.objects doc !! ref = Some data →
       ∃ data',
         Pdf.objects out !! ref = Some data'
         ∧ data' = Py.replace old_url new_url data
         ∧ Py.occurrences old_url data' = 0%nat
         ∧ Py.occurrences new_url data' =
             (Py.occurrences old_url data + Py.occurrences new_url data)%nat).
Proof.
  intros Hfile Hret.
  apply (replace_text_in_pdf_Return_inv _ _ _ _ _ _ _ Hfile) in Hret
    as (_ & _ & ->).
  split; [reflexivity|].
  intros i page ref data Hi Href Hdata. cbn [Pdf.objects].
  exists (Py.replace_scan old_url new_url 0 data). split; [|split; [|split]].
  - rewrite (replace_store_lookup _ _ _ _ url_replace_idem).
    rewrite decide_True.
    + rewrite Hdata. reflexivity.
    + apply list_elem_of_fmap. exists page. split; [now symmetry|].
      now apply list_elem_of_lookup_2 in Hi.
  - reflexivity.
  - apply scan_occurrences_old.
  - apply scan_occurrences_new.
Qed.

Lemma replace_url_spec_witness :
  Pdf.pages
    {| Pdf.pages := Pdf.pages Sample.doc;
       Pdf.objects :=
         replace_store (Py.replace old_url new_url) (Pdf.pages Sample.doc)
           (Pdf.objects Sample.doc) |} = Pdf.pages Sample.doc
  ∧ (∀ i page ref data,
       Pdf.pages Sample.doc !! i = Some page →
       Pdf.Contents page = Some ref →
       Pdf.objects Sample.doc !! ref = Some data →
       ∃ data',
         Pdf.objects
           {| Pdf.pages := Pdf.pages Sample.doc;
              Pdf.objects :=
                replace_store (Py.replace old_url new_url) (Pdf.pages Sample.doc)
                  (Pdf.objects Sample.doc) |} !! ref = Some data'
         ∧ data' = Py.replace old_url new_url data
         ∧ Py.occurrences old_url data' = 0%nat
         ∧ Py.occurrences new_url data' =
             (Py.occurrences old_url data + Py.occurrences new_url data)%nat).
Proof.
  apply (replace_url_spec Sample.world Sample.world "in.pdf" Sample.doc).
  - reflexivity.
  - reflexivity.
Defined.

(** ** Footer image *)

Lemma footer_page_raster (image_path : string) (page : Pdf.Page)
    (writer : list Pdf.Page) (w : World) :
  is_svg image_path = false → holds_raster w image_path = true →
  footer_page image_path page writer w =
    (Return (writer ++ [Pdf.merge_page page (footer_overlay image_path page)]), w).
Proof.
  intros Hsvg Hraster. unfold holds_raster in Hraster.
  unfold footer_page, try_draw, bind, drawImage. rewrite Hsvg.
  destruct (files w !! image_path) as [[]|]; try discriminate Hraster.
  reflexivity.
Qed.

Lemma footer_page_svg (image_path : string) (page : Pdf.Page)
    (writer : list Pdf.Page) (w : World) :
  is_svg image_path = true →
  footer_page image_path page writer w = (Raise IndexError, w).
Proof.
  intros Hsvg. unfold footer_page, try_draw, bind. now rewrite Hsvg.
Qed.

Lemma footer_page_draw_fails (image_path : string) (page : Pdf.Page)
    (writer : list Pdf.Page) (w : World) :
  is_svg image_path = false → holds_raster w image_path = false →
  footer_page image_path page writer w =
    (Raise IndexError,
     {| files := files w;
        stdout := stdout w ++
          [TextExn "Warning: Could not add footer image: " (OSError image_path)] |}).
Proof.
  intros Hsvg Hraster. unfold holds_raster in Hraster.
  unfold footer_page, try_draw, bind, drawImage. rewrite Hsvg.
  destruct (files w !! image_path) as [[]|]; try discriminate Hraster;
    reflexivity.
Qed.

Lemma footer_loop_raster (image_path : string) (ps writer : list Pdf.Page) (w : World) :
  is_svg image_path = false → holds_raster w image_path = true →
  for_each (footer_page image_path) ps writer w =
    (Return (writer ++
       ((fun page => Pdf.merge_page page (footer_overlay image_path page)) <$> ps)), w).
Proof.
  intros Hsvg Hraster. revert writer.
  induction ps as [|page ps IH]; intros writer.
  - simpl. now rewrite app_nil_r.
  - cbn [for_each].
    rewrite (bind_Return _ _ _ _ _ (footer_page_raster _ page writer w Hsvg Hraster)).
    rewrite IH, fmap_cons, <- app_assoc. reflexivity.
Qed.

(** C5. With a raster image that can be read, the footer transform gives
    every page an overlay of exactly the page's mediabox width and height,
    holding one image whose lower-left corner is at (page width - 50 - 30,
    30) and whose size is 30 by 30 whatever the source image, and merges
    that overlay on top of the page, which is otherwise unchanged. *)
Theorem add_footer_image_raster (w : World) (pdf_path image_path : string)
    (doc : Pdf.Document) :
  files w !! pdf_path = Some (FPdf doc) →
  is_svg image_path = false →
  holds_raster w image_path = true →
  ∃ out,
    add_footer_image pdf_path image_path w = (Return out, w)
    ∧ length (Pdf.pages out) = length (Pdf.pages doc)
    ∧ (∀ i page, Pdf.pages doc !! i = Some page →
         Pdf.pages out !! i =
           Some {| Pdf.mediabox := Pdf.mediabox page;
                   Pdf.Rotate := Pdf.Rotate page;
                   Pdf.Contents := Pdf.Contents page;
                   Pdf.merged := Pdf.merged page ++
                     [ {| Pdf.overlay_size :=
                            ((Pdf.mediabox page).1, (Pdf.mediabox page).2);
                          Pdf.overlay_images :=
                            [ {| Pdf.image := image_path;
                                 Pdf.x := ((Pdf.mediabox page).1 - 50 - 30)%Q;
                                 Pdf.y := 30;
                                 Pdf.width := 30;
                                 Pdf.height := 30 |} ] |} ] |}).
Proof.
  intros Hfile Hsvg Hraster. eexists. split; [|split].
  - unfold add_footer_image.
    rewrite (bind_Return _ _ _ _ _ (PdfReader_pdf _ _ _ Hfile)).
    rewrite (bind_Return _ _ _ _ _ (footer_loop_raster _ _ [] w Hsvg Hraster)).
    reflexivity.
  - simpl. now rewrite length_fmap.
  - intros i page Hi. simpl. rewrite list_lookup_fmap, Hi. reflexivity.
Qed.

Lemma add_footer_image_raster_witness :
  ∃ out,
    add_footer_image "in.pdf" "logo.png" Sample.world = (Return out, Sample.world)
    ∧ length (Pdf.pages out) = length (Pdf.pages Sample.doc)
    ∧ (∀ i page, Pdf.pages Sample.doc !! i = Some page →
         Pdf.pages out !! i =
           Some {| Pdf.mediabox := Pdf.mediabox page;
                   Pdf.Rotate := Pdf.Rotate page;
                   Pdf.Contents := Pdf.Contents page;
                   Pdf.merged := Pdf.merged page ++
                     [ {| Pdf.overlay_size :=
                            ((Pdf.mediabox page).1, (Pdf.mediabox page).2);
                          Pdf.overlay_images :=
                            [ {| Pdf.image := "logo.png";
                                 Pdf.x := ((Pdf.mediabox page).1 - 50 - 30)%Q;
                                 Pdf.y := 30;
                                 Pdf.width := 30;
                                 Pdf.height := 30 |} ] |} ] |}).
Proof.
  apply (add_footer_image_raster Sample.world "in.pdf" "logo.png" Sample.doc).
  - reflexivity.
  - reflexivity.
  - reflexivity.
Defined.

(** The run in which [--footer-image] is the only transform asked for and
    the transform raises: the generic handler reports the exception. *)
Lemma main_footer_only_raises (args : Args) (w w' : World) (doc : Pdf.Document)
    (image : string) (e : exn) :
  files w !! input args = Some (FPdf doc) →
  rotate args = None → replace_url args = None →
  footer_image args = Some image → PyStr.truthy image = true →
  is_Some (files w !! image) →
  add_footer_image (input args) image w = (Raise e, w') →
  main args w =
    (SystemExit 1,
     {| files := files w';
        stdout := stdout w' ++ [TextExn "Error processing PDF: " e] |}).
Proof.
  intros Hfile Hr Hu Hf Ht Himage Hfooter.
  rewrite main_input_found by (rewrite Hfile; eauto).
  unfold main_try. rewrite Hr, Hu, Hf, Ht.
  rewrite (bind_Return _ _ _ _ _ (PdfReader_pdf _ _ _ Hfile)).
  unfold bind at 1 2. unfold ret at 1 2.
  rewrite (bind_Raise _ _ w w' e); [reflexivity|].
  rewrite (bind_Return _ _ _ _ _ (path_exists_Some _ _ Himage)). simpl.
  now apply bind_Raise.
Qed.

(** C6 fails on the code: with an image path ending in ".svg" nothing is
    drawn, reportlab saves a canvas without content as a PDF without
    pages, and taking [pages[0]] of it raises [IndexError] outside the
    [try] statement. On a document with at least one page the transform
    raises and the run exits with code 1 without writing the output. *)
Theorem footer_svg_raises (args : Args) (w : World) (doc : Pdf.Document)
    (page : Pdf.Page) (image : string) :
  files w !! input args = Some (FPdf doc) →
  Pdf.pages doc !! 0%nat = Some page →
  rotate args = None → replace_url args = None →
  footer_image args = Some image → PyStr.truthy image = true →
  is_Some (files w !! image) →
  is_svg image = true →
  add_footer_image (input args) image w = (Raise IndexError, w)
  ∧ main args w =
      (SystemExit 1,
       {| files := files w;
          stdout := stdout w ++ [TextExn "Error processing PDF: " IndexError] |}).
Proof.
  intros Hfile Hpage Hr Hu Hf Ht Himage Hsvg.
  assert (Hfooter : add_footer_image (input args) image w = (Raise IndexError, w)).
  { unfold add_footer_image.
    rewrite (bind_Return _ _ _ _ _ (PdfReader_pdf _ _ _ Hfile)).
    apply bind_Raise. destruct (Pdf.pages doc) as [|p ps]; [discriminate Hpage|].
    cbn [for_each]. apply bind_Raise. now apply footer_page_svg. }
  split; [exact Hfooter|].
  exact (main_footer_only_raises args w w doc image IndexError
           Hfile Hr Hu Hf Ht Himage Hfooter).
Qed.

Lemma footer_svg_raises_witness :
  add_footer_image "in.pdf" "logo.svg" Sample.world = (Raise IndexError, Sample.world)
  ∧ main (Sample.args None None (Some "logo.svg")) Sample.world =
      (SystemExit 1,
       {| files := files Sample.world;
          stdout := stdout Sample.world ++
            [TextExn "Error processing PDF: " IndexError] |}).
Proof.
  refine (footer_svg_raises (Sample.args None None (Some "logo.svg")) Sample.world
            Sample.doc (Sample.page 0 (Some 1%nat)) "logo.svg"
            eq_refl eq_refl eq_refl eq_refl eq_refl eq_refl _ eq_refl).
  exists FOther. reflexivity.
Defined.

(** C7 fails on the code: when drawing the image raises, the exception is
    caught and the warning is printed, but the canvas then has no content,
    the saved overlay has no page, and [pages[0]] raises [IndexError]
    outside the [try] statement: the page is not emitted, the remaining
    pages are not processed, and the run exits with code 1. *)
Theorem footer_draw_failure_aborts (args : Args) (w : World) (doc : Pdf.Document)
    (page : Pdf.Page) (image : string) :
  files w !! input args = Some (FPdf doc) →
  Pdf.pages doc !! 0%nat = Some page →
  rotate args = None → replace_url args = None →
  footer_image args = Some image → PyStr.truthy image = true →
  is_Some (files w !! image) →
  is_svg image = false →
  holds_raster w image = false →
  add_footer_image (input args) image w =
    (Raise IndexError,
     {| files := files w;
        stdout := stdout w ++
          [TextExn "Warning: Could not add footer image: " (OSError image)] |})
  ∧ main args w =
      (SystemExit 1,
       {| files := files w;
          stdout := stdout w ++
            [TextExn "Warning: Could not add footer image: " (OSError image);
             TextExn "Error processing PDF: " IndexError] |}).
Proof.
  intros Hfile Hpage Hr Hu Hf Ht Himage Hsvg Hraster.
  assert (Hfooter : add_footer_image (input args) image w =
    (Raise IndexError,
     {| files := files w;
        stdout := stdout w ++
          [TextExn "Warning: Could not add footer image: " (OSError image)] |})).
  { unfold add_footer_image.
    rewrite (bind_Return _ _ _ _ _ (PdfReader_pdf _ _ _ Hfile)).
    apply bind_Raise. destruct (Pdf.pages doc) as [|p ps]; [discriminate Hpage|].
    cbn [for_each]. apply bind_Raise. now apply footer_page_draw_fails. }
  split; [exact Hfooter|].
  rewrite (main_footer_only_raises args w _ doc image IndexError
             Hfile Hr Hu Hf Ht Himage Hfooter).
  cbn [files stdout]. now rewrite <- app_assoc.
Qed.

Lemma footer_draw_failure_aborts_witness :
  add_footer_image "in.pdf" "broken.png" Sample.world =
    (Raise IndexError,
     {| files := files Sample.world;
        stdout := stdout Sample.world ++
          [TextExn "Warning: Could not add footer image: " (OSError "broken.png")] |})
  ∧ main (Sample.args None None (Some "broken.png")) Sample.world =
      (SystemExit 1,
       {| files := files Sample.world;
          stdout := stdout Sample.world ++
            [TextExn "Warning: Could not add footer image: " (OSError "broken.png");
             TextExn "Error processing PDF: " IndexError] |}).
Proof.
  refine (footer_draw_failure_aborts (Sample.args None None (Some "broken.png"))
            Sample.world Sample.doc (Sample.page 0 (Some 1%nat)) "broken.png"
            eq_refl eq_refl eq_refl eq_refl eq_refl eq_refl _ eq_refl eq_refl).
  exists FOther. reflexivity.
Defined.

(** ** Several transforms in one invocation *)

Lemma no_exit_ret {A} (a : A) : no_exit (ret a).
Proof. intros w c. discriminate. Qed.

Lemma no_exit_lift {A} (o : outcome A) :
  (∀ c, o ≠ SystemExit c) → no_exit (lift o).
Proof. intros H w c. apply H. Qed.

Lemma no_exit_print (l : line) : no_exit (print l).
Proof. intros w c. discriminate. Qed.

Lemma no_exit_PdfReader (p : string) : no_exit (PdfReader p).
Proof.
  intros w c. unfold PdfReader. destruct (files w !! p) as [[]|]; discriminate.
Qed.

Lemma no_exit_bind {A B} (m : M A) (k : A → M B) :
  no_exit m → (∀ a, no_exit (k a)) → no_exit (bind m k).
Proof.
  intros Hm Hk w c. unfold bind. specialize (Hm w).
  destruct (m w) as [[a|e|c'] w1]; simpl in *.
  - apply Hk.
  - discriminate.
  - now contradiction (Hm c').
Qed.

Lemma no_exit_for_each {A S} (body : A → S → M S) (xs : list A) :
  (∀ x s, no_exit (body x s)) → ∀ s, no_exit (for_each body xs s).
Proof.
  intros Hbody. induction xs as [|x xs IH]; intros s; simpl.
  - apply no_exit_ret.
  - apply no_exit_bind; [apply Hbody|exact IH].
Qed.

Lemma no_exit_rotate_pages p rotations : no_exit (rotate_pages p rotations).
Proof.
  unfold rotate_pages. apply no_exit_bind; [apply no_exit_PdfReader|].
  intros reader. apply no_exit_bind; [|intros; apply no_exit_ret].
  apply no_exit_for_each. intros i s.
  destruct (Pdf.pages reader !! i); [|apply no_exit_lift; discriminate].
  apply no_exit_bind; [|intros; apply no_exit_ret].
  destruct (rotations !! _) as [angle|]; [|apply no_exit_ret].
  apply no_exit_lift. intros c. unfold Pdf.rotate.
  destruct (negb _); discriminate.
Qed.

Lemma no_exit_replace_text_in_pdf p old new :
  no_exit (replace_text_in_pdf p old new).
Proof.
  unfold replace_text_in_pdf. apply no_exit_bind; [apply no_exit_PdfReader|].
  intros reader. apply no_exit_bind; [|intros; apply no_exit_ret].
  apply no_exit_for_each. intros page [objs writer]. unfold replace_page.
  apply no_exit_bind.
  - apply no_exit_lift. intros c. unfold Pdf.getitem_Contents.
    destruct (Pdf.Contents page); discriminate.
  - intros [[ref content]|]; apply no_exit_ret.
Qed.

Lemma no_exit_try_draw c image_path footer_x footer_y image_size :
  no_exit (try_draw c image_path footer_x footer_y image_size).
Proof.
  unfold try_draw. destruct (is_svg image_path); [apply no_exit_ret|].
  intros w k. unfold drawImage.
  destruct (files w !! image_path) as [[]|]; discriminate.
Qed.

Lemma no_exit_add_footer_image p image : no_exit (add_footer_image p image).
Proof.
  unfold add_footer_image. apply no_exit_bind; [apply no_exit_PdfReader|].
  intros reader. apply no_exit_bind; [|intros; apply no_exit_ret].
  apply no_exit_for_each. intros page writer. unfold footer_page.
  apply no_exit_bind; [apply no_exit_try_draw|].
  intros c. destruct (Pdf.save c !! 0%nat);
    [apply no_exit_ret|apply no_exit_lift; discriminate].
Qed.

Lemma no_exit_parse_rotations spec : no_exit (parse_rotations spec).
Proof.
  intros w c. rewrite (stateless_world _ w (stateless_parse_rotations spec)).
  simpl. unfold parse_rotations. revert w. generalize (∅ : gmap Z Z).
  induction (PyStr.split "," spec) as [|rotation l IH]; intros rotations w;
    [discriminate|].
  cbn [for_each]. unfold bind at 1, parse_rotation, bind, lift, ret.
  destruct (unpack2 (PyStr.split ":" rotation)) as [[page angle]|e|k] eqn:E1.
  - destruct (py_int angle) as [a|e|k] eqn:E2.
    + destruct (py_int page) as [q|e|k] eqn:E3.
      * apply IH.
      * discriminate.
      * unfold py_int in E3. destruct (PyStr.int page); discriminate E3.
    + discriminate.
    + unfold py_int in E2. destruct (PyStr.int angle); discriminate E2.
  - discriminate.
  - unfold unpack2 in E1.
    destruct (PyStr.split ":" rotation) as [|? [|? [|? ?]]]; discriminate E1.
Qed.

Lemma main_try_stages (args : Args) :
  main_try args =
    (let! reader := PdfReader (input args) in
     let! writer := rotate_stage args (BareReader reader) in
     let! writer := replace_stage args writer in
     let! writer := footer_stage args writer in
     write_stage args writer).
Proof. reflexivity. Qed.

Lemma transform_stage_ok (t : M Pdf.Document) :
  observer t → stage_ok (Some t) (fun _ => let! d := t in ret (Writer d)).
Proof.
  intros Hobs writer w writer' w' H.
  apply bind_Return_inv in H as (d & w1 & Ht & Hret).
  injection Hret as <- <-.
  destruct (Hobs w w eq_refl) as [_ Hfiles]. rewrite Ht in Hfiles.
  split; [exact Hfiles|]. exists d. now rewrite Ht.
Qed.

Lemma skipped_stage_ok : stage_ok None ret.
Proof. intros writer w writer' w' H. injection H as <- <-. now split. Qed.

Lemma bind_assoc {A B C} (m : M A) (k : A → M B) (h : B → M C) (w : World) :
  bind (bind m k) h w = bind m (fun a => bind (k a) h) w.
Proof. unfold bind. now destruct (m w) as [[a|e|c] w1]. Qed.

Lemma rotate_stage_ok (args : Args) :
  stage_ok (rotate_transform args) (rotate_stage args).
Proof.
  unfold rotate_transform, rotate_stage.
  destruct (rotate args) as [spec|]; [|apply skipped_stage_ok].
  destruct (PyStr.truthy spec); [|apply skipped_stage_ok].
  intros writer w writer' w' H.
  apply (transform_stage_ok
           (let! rotations := parse_rotations spec in
            rotate_pages (input args) rotations)
           (observer_bind _ _ (observer_parse_rotations spec)
              (fun r => observer_rotate_pages (input args) r))
           writer w writer' w').
  now rewrite bind_assoc.
Qed.

Lemma replace_stage_ok (args : Args) :
  stage_ok (replace_transform args) (replace_stage args).
Proof.
  unfold replace_transform, replace_stage.
  destruct (replace_url args) as [[old new]|]; [|apply skipped_stage_ok].
  apply (transform_stage_ok _ (observer_replace_text_in_pdf _ _ _)).
Qed.

Lemma footer_stage_ok (args : Args) :
  stage_ok (footer_transform args) (footer_stage args).
Proof.
  unfold footer_transform, footer_stage.
  destruct (footer_image args) as [image|]; [|apply skipped_stage_ok].
  destruct (PyStr.truthy image); [|apply skipped_stage_ok].
  intros writer w writer' w' H. unfold bind at 1, path_exists in H.
  destruct (bool_decide _); simpl in H; [|discriminate H].
  now apply (transform_stage_ok _ (observer_add_footer_image _ _) writer).
Qed.

Lemma rotate_transform_observer (args : Args) (t : M Pdf.Document) :
  rotate_transform args = Some t → observer t.
Proof.
  unfold rotate_transform. destruct (rotate args) as [spec|]; [|discriminate].
  destruct (PyStr.truthy spec); [|discriminate]. intros [= <-].
  apply observer_bind; [apply observer_parse_rotations|].
  intros r. apply observer_rotate_pages.
Qed.


Lemma stage_no_exit_code (args : Args) (writer : working) (w w' : World) (c : Z) :
  (rotate_stage args writer w = (SystemExit c, w') → False)
  ∧ (replace_stage args writer w = (SystemExit c, w') → False)
  ∧ (footer_stage args writer w = (SystemExit c, w') → c = 1)
  ∧ (write_stage args writer w = (SystemExit c, w') → False).
Proof.
  split; [|split; [|split]].
  - unfold rotate_stage. destruct (rotate args) as [spec|]; [|discriminate].
    destruct (PyStr.truthy spec); [|discriminate].
    intros H. rewrite <- bind_assoc in H.
    eapply (no_exit_bind _ (fun d => ret (Writer d))); [| |now rewrite H].
    + apply no_exit_bind; [apply no_exit_parse_rotations|].
      intros r. apply no_exit_rotate_pages.
    + intros d. apply no_exit_ret.
  - unfold replace_stage. destruct (replace_url args) as [[old new]|];
      [|discriminate].
    intros H.
    eapply (no_exit_bind _ (fun d => ret (Writer d))); [| |now rewrite H].
    + apply no_exit_replace_text_in_pdf.
    + intros d. apply no_exit_ret.
  - unfold footer_stage. destruct (footer_image args) as [image|];
      [|discriminate].
    destruct (PyStr.truthy image); [|discriminate].
    unfold bind at 1, path_exists. destruct (bool_decide _); simpl.
    + intros H. exfalso.
      eapply (no_exit_bind _ (fun d => ret (Writer d))); [| |now rewrite H].
      * apply no_exit_add_footer_image.
      * intros d. apply no_exit_ret.
    + intros [= <- _]. reflexivity.
  - unfold write_stage, bind, open_wb, write_working, write_pdf, lift, print.
    destruct (files w !! output args) as [[]|]; destruct writer; discriminate.
Qed.

(** The run exits with code 0 only when the [try] statement runs to its
    end. *)
Lemma main_exit_0_inv (args : Args) (w : World) :
  exit_code (main args w).1 = 0 →
  ∃ w', main_try args w = (Return tt, w') ∧ main args w = (Return tt, w').
Proof.
  intros H. destruct (files w !! input args) as [f|] eqn:E.
  - rewrite main_input_found in * by (rewrite E; eauto).
    destruct (main_try args w) as [[[]|e|c] w'] eqn:Etry.
    + now exists w'.
    + discriminate H.
    + exfalso. simpl in H. subst c. rewrite main_try_stages in Etry.
      unfold bind at 1 in Etry.
      pose proof (no_exit_PdfReader (input args) w) as Hreader.
      destruct (PdfReader (input args) w) as [[reader|e|c] w0];
        [|discriminate Etry|now contradiction (Hreader c)].
      unfold bind at 1 in Etry.
      destruct (rotate_stage args (BareReader reader) w0) as [[wk1|e|c] w1] eqn:E1;
        [|discriminate Etry|
         injection Etry as -> ->;
         now apply (stage_no_exit_code args (BareReader reader) w0 w' 0) in E1].
      unfold bind at 1 in Etry.
      destruct (replace_stage args wk1 w1) as [[wk2|e|c] w2] eqn:E2;
        [|discriminate Etry|
         injection Etry as -> ->;
         now apply (stage_no_exit_code args wk1 w1 w' 0) in E2].
      unfold bind at 1 in Etry.
      destruct (footer_stage args wk2 w2) as [[wk3|e|c] w3] eqn:E3;
        [|discriminate Etry|
         injection Etry as -> ->;
         apply (stage_no_exit_code args wk2 w2 w' 0) in E3; discriminate E3].
      now apply (stage_no_exit_code args wk3 w3 w' 0) in Etry.
  - destruct (missing_input_lemma args w E) as [H1 _]. rewrite H1 in H.
    discriminate H.
Qed.





(** The same run, spelled out: the output holds the substitution made on
    the input and the rotation of page 1 is not in it. *)
Lemma rotate_then_replace_drops_rotation :
  ∃ d page,
    replace_text_in_pdf "in.pdf" "team-wiki.local" "team-wiki.etc.com" Sample.world
      = (Return d, Sample.world)
    ∧ files (main (Sample.args (Some "1:90")
                     (Some ("team-wiki.local", "team-wiki.etc.com")) None)
               Sample.world).2 !! "out.pdf" = Some (FPdf d)
    ∧ Pdf.pages d !! 0%nat = Some page
    ∧ Pdf.Rotate page = 0.
Proof. eexists _, _. repeat split; reflexivity. Qed.

(** * Further properties of the script *)

(** ** Computations that return without a trace *)

Lemma returns_pure_stateless {A} (m : M A) : stateless m → returns_pure m.
Proof. intros [o H] w a w'. rewrite H. intros [= _ Hw]. now symmetry. Qed.

Lemma returns_pure_ret {A} (a : A) : returns_pure (ret a).
Proof. intros w b w'. intros [= _ Hw]. now symmetry. Qed.

Lemma returns_pure_PdfReader p : returns_pure (PdfReader p).
Proof. intros w d w' H. now apply PdfReader_Return_inv in H. Qed.

Lemma returns_pure_path_exists p : returns_pure (path_exists p).
Proof. intros w b w'. intros [= _ Hw]. now symmetry. Qed.

Lemma returns_pure_bind {A B} (m : M A) (k : A → M B) :
  returns_pure m → (∀ a, returns_pure (k a)) → returns_pure (bind m k).
Proof.
  intros Hm Hk w b w' H. apply bind_Return_inv in H as (a & w1 & H1 & H2).
  apply Hm in H1. subst w1. now apply Hk in H2.
Qed.

Lemma returns_pure_for_each {A S} (body : A → S → M S) (xs : list A) :
  (∀ x s, returns_pure (body x s)) → ∀ s, returns_pure (for_each body xs s).
Proof.
  intros Hbody. induction xs as [|x xs IH]; intros s; simpl.
  - apply returns_pure_ret.
  - apply returns_pure_bind; [apply Hbody|exact IH].
Qed.

(** The loop body of the footer transform prints its warning only on the
    way to raising. *)
Lemma returns_pure_footer_page image page writer :
  returns_pure (footer_page image page writer).
Proof.
  intros w a w' H. destruct (is_svg image) eqn:Hsvg.
  - rewrite footer_page_svg in H by exact Hsvg. discriminate H.
  - destruct (holds_raster w image) eqn:Hr.
    + rewrite footer_page_raster in H by assumption.
      injection H as _ Hw. now symmetry.
    + rewrite footer_page_draw_fails in H by assumption. discriminate H.
Qed.

Lemma returns_pure_rotate_pages p rotations :
  returns_pure (rotate_pages p rotations).
Proof.
  unfold rotate_pages. apply returns_pure_bind; [apply returns_pure_PdfReader|].
  intros reader. apply returns_pure_bind; [|intros; apply returns_pure_ret].
  apply returns_pure_for_each. intros i s. apply returns_pure_stateless.
  destruct (Pdf.pages reader !! i); [|apply stateless_lift].
  apply stateless_bind; [|intros; apply stateless_ret].
  destruct (rotations !! _); [apply stateless_lift|apply stateless_ret].
Qed.

Lemma returns_pure_replace_text_in_pdf p old new :
  returns_pure (replace_text_in_pdf p old new).
Proof.
  unfold replace_text_in_pdf.
  apply returns_pure_bind; [apply returns_pure_PdfReader|].
  intros reader. apply returns_pure_bind; [|intros; apply returns_pure_ret].
  apply returns_pure_for_each. intros page [objs writer].
  apply returns_pure_stateless. unfold replace_page.
  apply stateless_bind; [apply stateless_lift|].
  intros [[ref content]|]; apply stateless_ret.
Qed.

Lemma returns_pure_add_footer_image p image :
  returns_pure (add_footer_image p image).
Proof.
  unfold add_footer_image.
  apply returns_pure_bind; [apply returns_pure_PdfReader|].
  intros reader. apply returns_pure_bind; [|intros; apply returns_pure_ret].
  apply returns_pure_for_each. intros page writer.
  apply returns_pure_footer_page.
Qed.

Lemma returns_pure_rotate_stage args wk : returns_pure (rotate_stage args wk).
Proof.
  unfold rotate_stage. destruct (rotate args) as [spec|]; [|apply returns_pure_ret].
  destruct (PyStr.truthy spec); [|apply returns_pure_ret].
  apply returns_pure_bind;
    [apply returns_pure_stateless, stateless_parse_rotations|].
  intros r. apply returns_pure_bind; [apply returns_pure_rotate_pages|].
  intros d. apply returns_pure_ret.
Qed.

Lemma returns_pure_replace_stage args wk : returns_pure (replace_stage args wk).
Proof.
  unfold replace_stage.
  destruct (replace_url args) as [[old new]|]; [|apply returns_pure_ret].
  apply returns_pure_bind; [apply returns_pure_replace_text_in_pdf|].
  intros d. apply returns_pure_ret.
Qed.

Lemma returns_pure_footer_stage args wk : returns_pure (footer_stage args wk).
Proof.
  unfold footer_stage.
  destruct (footer_image args) as [image|]; [|apply returns_pure_ret].
  destruct (PyStr.truthy image); [|apply returns_pure_ret].
  apply returns_pure_bind; [apply returns_pure_path_exists|].
  intros [|]; simpl.
  - apply returns_pure_bind; [apply returns_pure_add_footer_image|].
    intros d. apply returns_pure_ret.
  - intros w a w' H. discriminate H.
Qed.

Lemma observer_files {A} (m : M A) (w : World) :
  observer m → files (m w).2 = files w.
Proof. intros H. now destruct (H w w eq_refl). Qed.

Lemma observer_sys_exit {A} (c : Z) : observer (@sys_exit A c).
Proof. intros w w' H. now split. Qed.

Lemma observer_rotate_stage args wk : observer (rotate_stage args wk).
Proof.
  unfold rotate_stage. destruct (rotate args) as [spec|]; [|apply observer_ret].
  destruct (PyStr.truthy spec); [|apply observer_ret].
  apply observer_bind; [apply observer_parse_rotations|].
  intros r. apply observer_bind; [apply observer_rotate_pages|].
  intros d. apply observer_ret.
Qed.

Lemma observer_replace_stage args wk : observer (replace_stage args wk).
Proof.
  unfold replace_stage.
  destruct (replace_url args) as [[old new]|]; [|apply observer_ret].
  apply observer_bind; [apply observer_replace_text_in_pdf|].
  intros d. apply observer_ret.
Qed.

Lemma observer_footer_stage args wk : observer (footer_stage args wk).
Proof.
  unfold footer_stage.
  destruct (footer_image args) as [image|]; [|apply observer_ret].
  destruct (PyStr.truthy image); [|apply observer_ret].
  apply observer_bind; [apply observer_path_exists|].
  intros [|]; simpl.
  - apply observer_bind; [apply observer_add_footer_image|].
    intros d. apply observer_ret.
  - apply observer_bind; [apply observer_print|].
    intros _. apply observer_sys_exit.
Qed.

(** ** The driver, case by case *)

(** The three ways the last statements of the [try] block can go. *)
Lemma write_stage_cases (args : Args) (writer : working) (w : World) :
  write_stage args writer w =
    if holds_dir w (output args) then (Raise (OSError (output args)), w)
    else
      match writer with
      | BareReader _ =>
          (Raise (AttributeError "'PdfReader' object has no attribute 'write'"),
           {| files := <[output args := FEmpty]> (files w); stdout := stdout w |})
      | Writer d =>
          (Return tt,
           {| files := <[output args := FPdf d]> (files w);
              stdout := stdout w ++ [success_line args] |})
      end.
Proof.
  unfold write_stage, holds_dir, bind, open_wb, write_working, write_pdf, lift,
    print, success_line.
  destruct (files w !! output args) as [[]|]; destruct writer; simpl;
    rewrite ?insert_insert_eq; reflexivity.
Qed.

Ltac stage_failed E Hobs :=
  left; eexists _, _; split; [eassumption|];
  split; [pose proof Hobs as F; rewrite E in F; exact F|];
  split; [reflexivity|];
  try (intros ? ?; discriminate);
  let c' := fresh "c" in
  intros c' [= <-];
  match type of E with
  | _ ?args ?wk ?w = (SystemExit ?c, ?w1) =>
      destruct (stage_no_exit_code args wk w w1 c) as (Ha & Hb & Hc & Hd);
      first [ exact (Hc E) | exfalso; first [exact (Ha E) | exact (Hb E)] ]
  end.

(** The [try] block either stops before it opens the output, the files
    being as they were, or reaches the write with the working object that
    the options determine. *)
Lemma main_try_cases (args : Args) (w : World) :
  (∃ o w', main_try args w = (o, w') ∧ files w' = files w
     ∧ is_return o = false ∧ ∀ c, o = SystemExit c → c = 1)
  ∨ (∃ wk, main_try args w = write_stage args wk w
       ∧ match last_applied args with
         | Some t => ∃ d, (t w).1 = Return d ∧ wk = Writer d
         | None => ∃ reader, wk = BareReader reader
         end).
Proof.
  remember (main_try args w) as r eqn:Er. rewrite main_try_stages in Er.
  unfold bind at 1 in Er.
  destruct (PdfReader (input args) w) as [[reader|e|c] w0] eqn:E0.
  2: { left. exists (Raise e), w0. repeat split; [exact Er| |discriminate].
       pose proof (observer_files _ w (observer_PdfReader (input args))) as F.
       now rewrite E0 in F. }
  2: { exfalso. apply (no_exit_PdfReader (input args) w c). now rewrite E0. }
  apply PdfReader_Return_inv in E0 as [_ ->].
  unfold bind at 1 in Er.
  destruct (rotate_stage args (BareReader reader) w) as [[wk1|e|c] w1] eqn:E1;
    [|stage_failed E1 (observer_files _ w (observer_rotate_stage args (BareReader reader)))..].
  pose proof (returns_pure_rotate_stage _ _ _ _ _ E1). subst w1.
  unfold bind at 1 in Er.
  destruct (replace_stage args wk1 w) as [[wk2|e|c] w2] eqn:E2;
    [|stage_failed E2 (observer_files _ w (observer_replace_stage args wk1))..].
  pose proof (returns_pure_replace_stage _ _ _ _ _ E2). subst w2.
  unfold bind at 1 in Er.
  destruct (footer_stage args wk2 w) as [[wk3|e|c] w3] eqn:E3;
    [|stage_failed E3 (observer_files _ w (observer_footer_stage args wk2))..].
  pose proof (returns_pure_footer_stage _ _ _ _ _ E3). subst w3.
  right. exists wk3. split; [exact Er|].
  apply rotate_stage_ok in E1 as [_ R1].
  apply replace_stage_ok in E2 as [_ R2].
  apply footer_stage_ok in E3 as [_ R3].
  unfold last_applied.
  destruct (footer_transform args) as [t3|]; [exact R3|]. subst wk3.
  destruct (replace_transform args) as [t2|]; [exact R2|]. subst wk2.
  destruct (rotate_transform args) as [t1|]; [exact R1|]. subst wk1.
  now exists reader.
Qed.

(** Every run of [main] is of one of three kinds. *)
Lemma main_cases (args : Args) (w : World) :
  ((main args w).1 = SystemExit 1 ∧ files (main args w).2 = files w)
  ∨ ((main args w).1 = SystemExit 1 ∧ last_applied args = None
     ∧ files (main args w).2 = <[output args := FEmpty]> (files w))
  ∨ (∃ t d, last_applied args = Some t ∧ (t w).1 = Return d
       ∧ main args w =
           (Return tt,
            {| files := <[output args := FPdf d]> (files w);
               stdout := stdout w ++ [success_line args] |})).
Proof.
  destruct (files w !! input args) as [f|] eqn:E.
  - rewrite main_input_found by (rewrite E; eauto).
    destruct (main_try_cases args w)
      as [(o & w' & Htry & F & Hret & Hc)|(wk & Htry & Hlast)].
    + rewrite Htry. left. destruct o as [u|e|c]; [discriminate Hret| |].
      * now split.
      * pose proof (Hc c eq_refl). subst c. now split.
    + rewrite Htry, write_stage_cases.
      destruct (holds_dir w (output args)); [left; now split|].
      destruct (last_applied args) as [t|].
      * destruct Hlast as (d & Ht & ->). right; right. now exists t, d.
      * destruct Hlast as (reader & ->). right; left. now repeat split.
  - left. unfold main.
    rewrite (bind_Return _ _ _ _ _ (path_exists_None _ _ E)). now split.
Qed.

(** X1. Whatever the options and whatever the run does, [main] leaves
    every path of the file system other than the one given to [--output]
    as it was. *)
Theorem main_touches_only_output (args : Args) (w : World) (p : string) :
  p ≠ output args →
  files (main args w).2 !! p = files w !! p.
Proof.
  intros Hp.
  destruct (main_cases args w) as [[_ F]|[(_ & _ & F)|(t & d & _ & _ & F)]].
  - now rewrite F.
  - rewrite F. now apply lookup_insert_ne.
  - rewrite F. simpl. now apply lookup_insert_ne.
Qed.

Lemma main_touches_only_output_witness :
  files (main (Sample.args (Some "1:90") None None) Sample.world).2 !! "in.pdf"
  = files Sample.world !! "in.pdf".
Proof.
  apply (main_touches_only_output (Sample.args (Some "1:90") None None)
           Sample.world "in.pdf").
  vm_compute. discriminate.
Defined.

(** A run that returns has had every transform whose option was given
    return. *)
Lemma main_Return_all_return (args : Args) (w : World) :
  (main args w).1 = Return tt →
  returns_on (rotate_transform args) w = true
  ∧ returns_on (replace_transform args) w = true
  ∧ returns_on (footer_transform args) w = true.
Proof.
  intros H.
  assert (Hexit : exit_code (main args w).1 = 0) by now rewrite H.
  apply main_exit_0_inv in Hexit as (w' & Htry & _).
  rewrite main_try_stages in Htry.
  apply bind_Return_inv in Htry as (reader & w0 & Hreader & Htry).
  apply PdfReader_Return_inv in Hreader as [_ ->].
  apply bind_Return_inv in Htry as (wk1 & w1 & H1 & Htry).
  pose proof (returns_pure_rotate_stage _ _ _ _ _ H1). subst w1.
  apply bind_Return_inv in Htry as (wk2 & w2 & H2 & Htry).
  pose proof (returns_pure_replace_stage _ _ _ _ _ H2). subst w2.
  apply bind_Return_inv in Htry as (wk3 & w3 & H3 & Htry).
  pose proof (returns_pure_footer_stage _ _ _ _ _ H3). subst w3.
  apply rotate_stage_ok in H1 as [_ R1].
  apply replace_stage_ok in H2 as [_ R2].
  apply footer_stage_ok in H3 as [_ R3].
  unfold returns_on.
  destruct (rotate_transform args) as [t1|];
    [destruct R1 as (d1 & -> & _)|];
  (destruct (replace_transform args) as [t2|];
    [destruct R2 as (d2 & -> & _)|]);
  (destruct (footer_transform args) as [t3|];
    [destruct R3 as (d3 & -> & _)|]); now repeat split.
Qed.

(** X3. A transform that fails aborts the whole run before the output is
    opened, also when its result would have been discarded: if any of the
    transforms whose option is given raises on the input, the run exits
    with status 1 and the file system is exactly as it was. *)
Theorem failing_transform_aborts (args : Args) (w : World) :
  returns_on (rotate_transform args) w
  && returns_on (replace_transform args) w
  && returns_on (footer_transform args) w = false →
  exit_code (main args w).1 = 1 ∧ files (main args w).2 = files w.
Proof.
  intros Hfail.
  destruct (main_cases args w) as [[H F]|[(_ & Hnone & _)|(t & d & _ & _ & H)]].
  - rewrite H. now split.
  - exfalso. unfold last_applied in Hnone. unfold returns_on in Hfail.
    destruct (footer_transform args); [discriminate Hnone|].
    destruct (replace_transform args); [discriminate Hnone|].
    destruct (rotate_transform args); discriminate.
  - exfalso.
    destruct (main_Return_all_return args w) as (H1 & H2 & H3);
      [now rewrite H|].
    rewrite H1, H2, H3 in Hfail. discriminate Hfail.
Qed.

Lemma failing_transform_aborts_witness :
  exit_code
    (main (Sample.args (Some "1:45")
             (Some ("team-wiki.local", "team-wiki.etc.com")) None)
       Sample.world).1 = 1
  ∧ files
      (main (Sample.args (Some "1:45")
               (Some ("team-wiki.local", "team-wiki.etc.com")) None)
         Sample.world).2 = files Sample.world.
Proof.
  apply (failing_transform_aborts
           (Sample.args (Some "1:45")
              (Some ("team-wiki.local", "team-wiki.etc.com")) None)
           Sample.world).
  reflexivity.
Defined.

(** X4. A run that exits with status 0 has printed exactly one line, the
    success message naming the output path, and has written there a
    document that the last applied transform returns on the input. *)
Theorem successful_run_prints_one_line (args : Args) (w : World) :
  exit_code (main args w).1 = 0 →
  stdout (main args w).2 = stdout w ++ [success_line args]
  ∧ ∃ d, files (main args w).2 !! output args = Some (FPdf d).
Proof.
  intros Hexit.
  destruct (main_cases args w) as [[H _]|[(H & _)|(t & d & _ & _ & H)]].
  - rewrite H in Hexit. discriminate Hexit.
  - rewrite H in Hexit. discriminate Hexit.
  - rewrite H. simpl. split; [reflexivity|]. exists d. apply lookup_insert_eq.
Qed.

Lemma successful_run_prints_one_line_witness :
  stdout (main (Sample.args (Some "1:90") None None) Sample.world).2
  = stdout Sample.world ++ [success_line (Sample.args (Some "1:90") None None)]
  ∧ ∃ d, files (main (Sample.args (Some "1:90") None None) Sample.world).2
           !! output (Sample.args (Some "1:90") None None) = Some (FPdf d).
Proof.
  apply (successful_run_prints_one_line (Sample.args (Some "1:90") None None)
           Sample.world).
  reflexivity.
Defined.

(** ** The driver: the stages that return, and a missing footer image *)

Lemma transform_stage_returns (t : M Pdf.Document) (w : World) :
  returns_pure t → is_return (t w).1 = true →
  ∃ d, (let! d := t in ret (Writer d)) w = (Return (Writer d), w).
Proof.
  intros Hpure Hret. unfold bind.
  destruct (t w) as [[d|e|c] w1] eqn:E; try discriminate Hret.
  apply Hpure in E. subst w1. now exists d.
Qed.

Lemma rotate_stage_returns (args : Args) (wk : working) (w : World) :
  returns_on (rotate_transform args) w = true →
  ∃ wk', rotate_stage args wk w = (Return wk', w).
Proof.
  unfold rotate_transform, rotate_stage.
  destruct (rotate args) as [spec|]; [|now exists wk].
  destruct (PyStr.truthy spec); [|now exists wk].
  intros H. apply transform_stage_returns in H as [d H].
  - exists (Writer d). now rewrite <- bind_assoc.
  - apply returns_pure_bind;
      [apply returns_pure_stateless, stateless_parse_rotations|].
    intros r. apply returns_pure_rotate_pages.
Qed.

Lemma replace_stage_returns (args : Args) (wk : working) (w : World) :
  returns_on (replace_transform args) w = true →
  ∃ wk', replace_stage args wk w = (Return wk', w).
Proof.
  unfold replace_transform, replace_stage.
  destruct (replace_url args) as [[old new]|]; [|now exists wk].
  intros H. apply transform_stage_returns in H as [d H].
  - now exists (Writer d).
  - apply returns_pure_replace_text_in_pdf.
Qed.

Lemma footer_stage_returns (args : Args) (wk : working) (w : World) :
  footer_found args w = true →
  returns_on (footer_transform args) w = true →
  ∃ wk', footer_stage args wk w = (Return wk', w).
Proof.
  unfold footer_found, footer_transform, footer_stage.
  destruct (footer_image args) as [image|]; [|now exists wk].
  destruct (PyStr.truthy image); [|now exists wk].
  intros Hfound H. apply bool_decide_eq_true_1 in Hfound.
  rewrite (bind_Return _ _ _ _ _ (path_exists_Some _ _ Hfound)). simpl.
  apply transform_stage_returns in H as [d H].
  - now exists (Writer d).
  - apply returns_pure_add_footer_image.
Qed.

(** X6. A footer image that does not exist is reported by its own message
    and ends the run with [sys.exit(1)] from inside the [try] block:
    the generic handler does not catch it, nothing else is printed, no file
    is written, and what the rotation and the substitution computed is
    dropped. *)
Theorem missing_footer_image_exits_1 (args : Args) (w : World)
    (doc : Pdf.Document) (image : string) :
  files w !! input args = Some (FPdf doc) →
  returns_on (rotate_transform args) w = true →
  returns_on (replace_transform args) w = true →
  footer_image args = Some image →
  PyStr.truthy image = true →
  files w !! image = None →
  main args w =
    (SystemExit 1,
     {| files := files w;
        stdout := stdout w ++ [Text ("Error: Footer image not found: " ++ image)] |}).
Proof.
  intros Hfile H1 H2 Himage Htruthy Hnone.
  rewrite main_input_found by (rewrite Hfile; eauto).
  rewrite main_try_stages.
  rewrite (bind_Return _ _ _ _ _ (PdfReader_pdf _ _ _ Hfile)).
  destruct (rotate_stage_returns args (BareReader doc) w H1) as [wk1 E1].
  rewrite (bind_Return _ _ _ _ _ E1).
  destruct (replace_stage_returns args wk1 w H2) as [wk2 E2].
  rewrite (bind_Return _ _ _ _ _ E2).
  unfold bind at 1. unfold footer_stage. rewrite Himage, Htruthy.
  rewrite (bind_Return _ _ _ _ _ (path_exists_None _ _ Hnone)). reflexivity.
Qed.

Lemma missing_footer_image_exits_1_witness :
  main (Sample.args (Some "1:90") None (Some "nowhere.png")) Sample.world =
    (SystemExit 1,
     {| files := files Sample.world;
        stdout := stdout Sample.world ++
          [Text ("Error: Footer image not found: " ++ "nowhere.png")] |}).
Proof.
  apply (missing_footer_image_exits_1
           (Sample.args (Some "1:90") None (Some "nowhere.png"))
           Sample.world Sample.doc "nowhere.png"); reflexivity.
Defined.

(** ** Rotation: bad angles and keys that name no page *)

Lemma forallb_false {A} (f : A → bool) (l : list A) :
  forallb f l = false → ∃ x, In x l ∧ f x = false.
Proof.
  induction l as [|a l IH]; simpl; [discriminate|].
  destruct (f a) eqn:E; simpl.
  - intros H. destruct (IH H) as (x & Hx & Hf). exists x. split; [now right|exact Hf].
  - intros _. exists a. split; [now left|exact E].
Qed.

Lemma right_angles_false (rotations : gmap Z Z) (n : nat) :
  right_angles rotations n = false →
  ∃ i angle, (i < n)%nat ∧ rotations !! (Z.of_nat i + 1) = Some angle
             ∧ angle mod 90 ≠ 0.
Proof.
  unfold right_angles. intros H. apply forallb_false in H as (i & Hi & Hf).
  apply in_seq in Hi.
  destruct (rotations !! (Z.of_nat i + 1)) as [angle|] eqn:E; [|discriminate Hf].
  exists i, angle. split; [lia|]. split; [exact E|].
  now apply Z.eqb_neq.
Qed.

(** The rotation loop stops at the first page whose angle PyPDF2
    refuses. *)
Lemma rotate_loop_raises (rotations : gmap Z Z) (pre suf writer : list Pdf.Page)
    (w : World) :
  (∃ j angle, (j < length suf)%nat
     ∧ rotations !! (Z.of_nat (length pre + j) + 1) = Some angle
     ∧ angle mod 90 ≠ 0) →
  for_each
    (fun (page_num : nat) (writer : list Pdf.Page) =>
       match (pre ++ suf) !! page_num with
       | None => lift (Raise IndexError)
       | Some page =>
           let! page :=
             match rotations !! (Z.of_nat page_num + 1) with
             | Some angle => lift (Pdf.rotate angle page)
             | None => ret page
             end in
           ret (writer ++ [page])
       end)
    (seq (length pre) (length suf)) writer w
  = (Raise (ValueError "Rotation angle must be a multiple of 90"), w).
Proof.
  revert pre writer.
  induction suf as [|page suf IH]; intros pre writer (j & angle & Hj & Hrot & Hbad).
  - simpl in Hj. lia.
  - cbn [length seq for_each]. unfold bind at 1.
    rewrite list_lookup_middle by reflexivity.
    specialize (IH (pre ++ [page])).
    rewrite length_app in IH. cbn [length] in IH.
    rewrite Nat.add_1_r in IH. rewrite <- app_assoc in IH. cbn [app] in IH.
    assert (Hnext : j ≠ 0%nat →
      ∃ j' angle', (j' < length suf)%nat
        ∧ rotations !! (Z.of_nat (S (length pre) + j') + 1) = Some angle'
        ∧ angle' mod 90 ≠ 0).
    { intros Hj0. destruct j as [|j']; [contradiction|].
      exists j', angle. split; [simpl in Hj; lia|]. split; [|exact Hbad].
      rewrite <- Hrot. do 2 f_equal. lia. }
    destruct (rotations !! (Z.of_nat (length pre) + 1)) as [a|] eqn:E.
    + unfold bind at 1. unfold lift at 1. unfold Pdf.rotate.
      destruct (a mod 90 =? 0) eqn:Ea; simpl; [|reflexivity].
      apply IH, Hnext. intros ->. rewrite Nat.add_0_r, E in Hrot.
      injection Hrot as ->. now apply Z.eqb_eq in Ea.
    + unfold bind at 1. unfold ret at 1.
      apply IH, Hnext. intros ->. rewrite Nat.add_0_r, E in Hrot.
      discriminate Hrot.
Qed.

(** X7. An angle that is not a multiple of 90, given for a page the
    document has, makes the rotation transform raise [ValueError]: no
    document is returned, not even for the pages before it, and the world
    is left as it was. *)
Theorem rotate_pages_bad_angle_raises (w : World) (pdf_path : string)
    (doc : Pdf.Document) (rotations : gmap Z Z) :
  files w !! pdf_path = Some (FPdf doc) →
  right_angles rotations (length (Pdf.pages doc)) = false →
  rotate_pages pdf_path rotations w =
    (Raise (ValueError "Rotation angle must be a multiple of 90"), w).
Proof.
  intros Hfile Hbad. unfold rotate_pages.
  rewrite (bind_Return _ _ _ _ _ (PdfReader_pdf _ _ _ Hfile)).
  apply right_angles_false in Hbad as (i & angle & Hi & Hrot & Hmod).
  pose proof (rotate_loop_raises rotations [] (Pdf.pages doc) [] w) as Hloop.
  cbn [app length] in Hloop.
  rewrite (bind_Raise _ _ _ _ _ (Hloop (ex_intro _ i (ex_intro _ angle
             (conj Hi (conj Hrot Hmod)))))).
  reflexivity.
Qed.

Lemma rotate_pages_bad_angle_raises_witness :
  rotate_pages "in.pdf" {[ 1 := 90; 2 := 100 ]} Sample.world =
    (Raise (ValueError "Rotation angle must be a multiple of 90"), Sample.world).
Proof.
  apply (rotate_pages_bad_angle_raises Sample.world "in.pdf" Sample.doc
           {[ 1 := 90; 2 := 100 ]}); reflexivity.
Defined.

(** X8. Only the keys that are page numbers of the document count: two
    mappings that give the same angle, or none, to each of the page numbers
    1 to N make the rotation transform behave alike, whatever they hold
    under 0, negative numbers or numbers above N. *)
Theorem rotate_pages_in_range_keys_only (w : World) (pdf_path : string)
    (doc : Pdf.Document) (r1 r2 : gmap Z Z) :
  files w !! pdf_path = Some (FPdf doc) →
  forallb (fun i => bool_decide (angle_of r1 i = angle_of r2 i))
    (seq 0 (length (Pdf.pages doc))) = true →
  rotate_pages pdf_path r1 w = rotate_pages pdf_path r2 w.
Proof.
  intros Hfile Hagree. unfold rotate_pages.
  rewrite !(bind_Return _ _ _ _ _ (PdfReader_pdf _ _ _ Hfile)).
  unfold bind at 1 3. rewrite (for_each_ext _
    (fun (page_num : nat) (writer : list Pdf.Page) =>
       match Pdf.pages doc !! page_num with
       | None => lift (Raise IndexError)
       | Some page =>
           let! page :=
             match r2 !! (Z.of_nat page_num + 1) with
             | Some angle => lift (Pdf.rotate angle page)
             | None => ret page
             end in
           ret (writer ++ [page])
       end)); [reflexivity|].
  intros i s w' Hi. rewrite forallb_forall in Hagree.
  apply list_elem_of_In, Hagree, bool_decide_eq_true_1 in Hi.
  unfold angle_of in Hi. now rewrite Hi.
Qed.

Lemma rotate_pages_in_range_keys_only_witness :
  rotate_pages "in.pdf" {[ 0 := 45; 1 := 90; -3 := 7; 3 := 30 ]} Sample.world
  = rotate_pages "in.pdf" {[ 1 := 90 ]} Sample.world.
Proof.
  apply (rotate_pages_in_range_keys_only Sample.world "in.pdf" Sample.doc);
    reflexivity.
Defined.

(** X9. A mapping none of whose keys is a page number of the document (the
    empty mapping among them) is accepted whatever its angles are, and the
    document comes back as it was read. *)
Theorem rotate_pages_no_page_named (w : World) (pdf_path : string)
    (doc : Pdf.Document) (rotations : gmap Z Z) :
  files w !! pdf_path = Some (FPdf doc) →
  forallb (fun i => bool_decide (angle_of rotations i = None))
    (seq 0 (length (Pdf.pages doc))) = true →
  rotate_pages pdf_path rotations w = (Return doc, w).
Proof.
  intros Hfile Hnone. rewrite forallb_forall in Hnone.
  assert (Hlookup : ∀ i page, Pdf.pages doc !! i = Some page →
            rotations !! (Z.of_nat i + 1) = None).
  { intros i page Hi. apply lookup_lt_Some in Hi.
    apply (bool_decide_eq_true_1 (angle_of rotations i = None)), Hnone, in_seq.
    lia. }
  rewrite (rotate_pages_ok w pdf_path doc rotations Hfile).
  - destruct doc as [ps objs]. simpl in *. do 3 f_equal.
    apply list_eq. intros i. rewrite list_lookup_imap.
    destruct (ps !! i) as [page|] eqn:E; [|reflexivity]. simpl.
    unfold rotated. now rewrite (Hlookup i page E).
  - intros i page angle Hi Hrot. rewrite (Hlookup i page Hi) in Hrot.
    discriminate Hrot.
Qed.

Lemma rotate_pages_no_page_named_witness :
  rotate_pages "in.pdf" {[ 0 := 45; 3 := 30 ]} Sample.world
  = (Return Sample.doc, Sample.world).
Proof.
  apply (rotate_pages_no_page_named Sample.world "in.pdf" Sample.doc);
    reflexivity.
Defined.

(** ** Text substitution with any pair of strings *)

Lemma replace_store_fixed (f : Py.bytes → Py.bytes) (ps : list Pdf.Page)
    (objs : gmap nat Py.bytes) :
  (∀ ref data, objs !! ref = Some data → f data = data) →
  replace_store f ps objs = objs.
Proof.
  intros Hfix. induction ps as [|page ps IH]; [reflexivity|].
  rewrite replace_store_cons.
  destruct (Pdf.Contents page) as [r|]; [|exact IH].
  destruct (objs !! r) as [data|] eqn:E; [|exact IH].
  rewrite (Hfix r data E), insert_id by exact E. exact IH.
Qed.

Lemma replace_store_unreferenced (f : Py.bytes → Py.bytes) (ps : list Pdf.Page)
    (objs : gmap nat Py.bytes) (ref : nat) :
  Some ref ∉ Pdf.Contents <$> ps →
  replace_store f ps objs !! ref = objs !! ref.
Proof.
  revert objs. induction ps as [|page ps IH]; intros objs Hnot; [reflexivity|].
  rewrite fmap_cons in Hnot. apply not_elem_of_cons in Hnot as [Hpage Hps].
  rewrite replace_store_cons, IH by exact Hps.
  destruct (Pdf.Contents page) as [r|]; [|reflexivity].
  destruct (objs !! r) as [data|]; [|reflexivity].
  apply lookup_insert_ne. congruence.
Qed.

Lemma replace_store_is_Some (f : Py.bytes → Py.bytes) (ps : list Pdf.Page)
    (objs : gmap nat Py.bytes) (ref : nat) :
  is_Some (replace_store f ps objs !! ref) ↔ is_Some (objs !! ref).
Proof.
  revert objs. induction ps as [|page ps IH]; intros objs; [reflexivity|].
  rewrite replace_store_cons, IH.
  destruct (Pdf.Contents page) as [r|]; [|reflexivity].
  destruct (objs !! r) as [data|] eqn:E; [|reflexivity].
  destruct (decide (r = ref)) as [->|Hne].
  - rewrite lookup_insert_eq, E. split; eauto.
  - now rewrite lookup_insert_ne.
Qed.

(** Replacing a pattern by itself copies the input. *)
Lemma replace_scan_same (x : byte) (p : Py.bytes) (k : nat) (s : Py.bytes) :
  Py.replace_scan (x :: p) (x :: p) k s = drop k s.
Proof.
  revert k. induction s as [|c s IH]; intros k.
  - now destruct k.
  - destruct k as [|k]; [|apply IH].
    cbn [Py.replace_scan drop].
    destruct (Py.startswith (x :: p) (c :: s)) eqn:E.
    + apply startswith_inv in E as [t E]. injection E as -> ->.
      rewrite IH. cbn [length]. rewrite Nat.sub_succ, Nat.sub_0_r.
      now rewrite drop_app_length.
    + now rewrite IH.
Qed.

Lemma replace_same (p s : Py.bytes) : Py.replace p p s = s.
Proof.
  destruct p as [|x p].
  - simpl. induction s as [|c s IH]; [reflexivity|]. simpl. now rewrite IH.
  - apply (replace_scan_same x p 0 s).
Qed.

(** X10. Whatever the two strings are, a substitution that returns gives
    back the pages of the input in their order, adds and removes no stream
    object, and leaves every stream that no page refers to byte for byte
    as it was; nothing is printed and no file is touched. *)
Theorem replace_text_keeps_structure (w w' : World) (pdf_path old new : string)
    (doc out : Pdf.Document) :
  files w !! pdf_path = Some (FPdf doc) →
  replace_text_in_pdf pdf_path old new w = (Return out, w') →
  w' = w
  ∧ Pdf.pages out = Pdf.pages doc
  ∧ (∀ ref, is_Some (Pdf.objects out !! ref) ↔ is_Some (Pdf.objects doc !! ref))
  ∧ (∀ ref, Some ref ∉ Pdf.Contents <$> Pdf.pages doc →
       Pdf.objects out !! ref = Pdf.objects doc !! ref).
Proof.
  intros Hfile Hret.
  apply (replace_text_in_pdf_Return_inv _ _ _ _ _ _ _ Hfile) in Hret
    as (_ & -> & ->).
  split; [reflexivity|]. split; [reflexivity|]. split.
  - intros ref. apply replace_store_is_Some.
  - intros ref. apply replace_store_unreferenced.
Qed.

Lemma replace_text_keeps_structure_witness :
  Sample.world = Sample.world
  ∧ Pdf.pages
      {| Pdf.pages := Pdf.pages Sample.doc;
         Pdf.objects :=
           replace_store (Py.replace (Py.encode_utf8 "wiki") (Py.encode_utf8 ""))
             (Pdf.pages Sample.doc) (Pdf.objects Sample.doc) |}
    = Pdf.pages Sample.doc
  ∧ (∀ ref,
       is_Some
         (Pdf.objects
            {| Pdf.pages := Pdf.pages Sample.doc;
               Pdf.objects :=
                 replace_store
                   (Py.replace (Py.encode_utf8 "wiki") (Py.encode_utf8 ""))
                   (Pdf.pages Sample.doc) (Pdf.objects Sample.doc) |} !! ref)
       ↔ is_Some (Pdf.objects Sample.doc !! ref))
  ∧ (∀ ref, Some ref ∉ Pdf.Contents <$> Pdf.pages Sample.doc →
       Pdf.objects
         {| Pdf.pages := Pdf.pages Sample.doc;
            Pdf.objects :=
              replace_store
                (Py.replace (Py.encode_utf8 "wiki") (Py.encode_utf8 ""))
                (Pdf.pages Sample.doc) (Pdf.objects Sample.doc) |} !! ref
       = Pdf.objects Sample.doc !! ref).
Proof.
  apply (replace_text_keeps_structure Sample.world Sample.world "in.pdf"
           "wiki" "" Sample.doc); reflexivity.
Defined.

(** X11. A substitution that returns, for a non-empty search string that
    occurs in no stream of the document, returns the document exactly as
    it was read. *)
Theorem replace_text_absent_is_identity (w w' : World)
    (pdf_path old new : string) (doc out : Pdf.Document) :
  files w !! pdf_path = Some (FPdf doc) →
  replace_text_in_pdf pdf_path old new w = (Return out, w') →
  PyStr.truthy old = true →
  absent_from (Py.encode_utf8 old) (Pdf.objects doc) = true →
  out = doc.
Proof.
  intros Hfile Hret Hold Habsent.
  apply (replace_text_in_pdf_Return_inv _ _ _ _ _ _ _ Hfile) in Hret
    as (_ & _ & ->).
  rewrite replace_store_fixed; [now destruct doc|].
  intros ref data Href. unfold absent_from in Habsent.
  rewrite forallb_forall in Habsent.
  apply elem_of_map_to_list, list_elem_of_In, Habsent, Nat.eqb_eq in Href.
  destruct old as [|a old]; [discriminate Hold|].
  apply (replace_scan_absent _ _ _ _ Href).
Qed.

Lemma replace_text_absent_is_identity_witness :
  {| Pdf.pages := Pdf.pages Sample.doc;
     Pdf.objects :=
       replace_store
         (Py.replace (Py.encode_utf8 "intranet.local")
            (Py.encode_utf8 "team-wiki.etc.com"))
         (Pdf.pages Sample.doc) (Pdf.objects Sample.doc) |} = Sample.doc.
Proof.
  apply (replace_text_absent_is_identity Sample.world Sample.world "in.pdf"
           "intranet.local" "team-wiki.etc.com" Sample.doc); reflexivity.
Defined.

(** X12. A substitution that returns, having replaced a string by itself
    (the empty string included), returns the document exactly as it was
    read. *)
Theorem replace_text_same_is_identity (w w' : World) (pdf_path text : string)
    (doc out : Pdf.Document) :
  files w !! pdf_path = Some (FPdf doc) →
  replace_text_in_pdf pdf_path text text w = (Return out, w') →
  out = doc.
Proof.
  intros Hfile Hret.
  apply (replace_text_in_pdf_Return_inv _ _ _ _ _ _ _ Hfile) in Hret
    as (_ & _ & ->).
  rewrite replace_store_fixed; [now destruct doc|].
  intros ref data _. apply replace_same.
Qed.

Lemma replace_text_same_is_identity_witness :
  {| Pdf.pages := Pdf.pages Sample.doc;
     Pdf.objects :=
       replace_store
         (Py.replace (Py.encode_utf8 "team-wiki.local")
            (Py.encode_utf8 "team-wiki.local"))
         (Pdf.pages Sample.doc) (Pdf.objects Sample.doc) |} = Sample.doc.
Proof.
  apply (replace_text_same_is_identity Sample.world Sample.world "in.pdf"
           "team-wiki.local" Sample.doc); reflexivity.
Defined.

(** ** The [--rotate] argument: later entries win *)

Lemma split_nonempty (sep : ascii) (s : string) : PyStr.split sep s ≠ [].
Proof.
  destruct s as [|c s]; simpl; [discriminate|].
  destruct (Ascii.eqb c sep); [discriminate|].
  destruct (PyStr.split sep s); discriminate.
Qed.

Lemma split_app (sep : ascii) (s1 s2 : string) :
  PyStr.split sep (String.append s1 (String sep s2)) =
    PyStr.split sep s1 ++ PyStr.split sep s2.
Proof.
  induction s1 as [|c s1 IH]; simpl.
  - now rewrite Ascii.eqb_refl.
  - destruct (Ascii.eqb c sep); [now rewrite IH|].
    rewrite IH. pose proof (split_nonempty sep s1) as Hne.
    destruct (PyStr.split sep s1) as [|t ts]; [contradiction|reflexivity].
Qed.

Lemma bind_ext {A B} (m : M A) (k1 k2 : A → M B) (w : World) :
  (∀ a w', k1 a w' = k2 a w') → bind m k1 w = bind m k2 w.
Proof.
  intros H. unfold bind. destruct (m w) as [[a|e|c] w']; try reflexivity.
  apply H.
Qed.

Lemma for_each_app {A S} (body : A → S → M S) (xs ys : list A) (s : S) (w : World) :
  for_each body (xs ++ ys) s w =
    (let! s' := for_each body xs s in for_each body ys s') w.
Proof.
  revert s w. induction xs as [|x xs IH]; intros s w; [reflexivity|].
  cbn [app for_each]. rewrite bind_assoc. apply bind_ext.
  intros s' w'. apply IH.
Qed.

(** One entry either fails by itself or sets one key, whatever the mapping
    built so far. *)
Lemma parse_rotation_cases (rotation : string) :
  ∃ o : outcome (Z * Z),
    ∀ rotations w,
      parse_rotation rotation rotations w =
        match o with
        | Return (p, a) => (Return (<[p := a]> rotations), w)
        | Raise e => (Raise e, w)
        | SystemExit c => (SystemExit c, w)
        end.
Proof.
  unfold parse_rotation, bind, lift, ret.
  destruct (unpack2 (PyStr.split ":" rotation)) as [[page angle]|e|c].
  - destruct (py_int angle) as [a|e|c].
    + destruct (py_int page) as [p|e|c].
      * now exists (Return (p, a)).
      * now exists (Raise e).
      * now exists (SystemExit c).
    + now exists (Raise e).
    + now exists (SystemExit c).
  - now exists (Raise e).
  - now exists (SystemExit c).
Qed.

(** The entries parsed on top of a mapping override it and leave the rest
    of it alone. *)
Lemma parse_loop_union (toks : list string) (m0 r m : gmap Z Z) (w : World) :
  for_each parse_rotation toks m0 w = (Return r, w) →
  for_each parse_rotation toks (m0 ∪ m) w = (Return (r ∪ m), w).
Proof.
  revert m0. induction toks as [|tok toks IH]; intros m0 H.
  - injection H as <-. reflexivity.
  - cbn [for_each] in *. destruct (parse_rotation_cases tok) as [o Ho].
    unfold bind at 1 in H. unfold bind at 1. rewrite Ho in *.
    destruct o as [[p a]|e|c]; try discriminate H.
    rewrite insert_union_l. now apply IH.
Qed.

(** X13. Entries of [--rotate] are applied from left to right: when two
    argument strings parse, to [r1] and [r2], then the first, a comma and
    the second parse to the mapping that takes its angles from [r2] and,
    for the pages [r2] does not name, from [r1]. A page listed twice gets
    the angle of its last entry, not the sum. *)
Theorem parse_rotations_later_wins (s1 s2 : string) (r1 r2 : gmap Z Z) (w : World) :
  parse_rotations s1 w = (Return r1, w) →
  parse_rotations s2 w = (Return r2, w) →
  parse_rotations (String.append s1 (String "," s2)) w = (Return (r2 ∪ r1), w).
Proof.
  unfold parse_rotations. intros H1 H2.
  rewrite split_app, for_each_app.
  rewrite (bind_Return _ _ _ _ _ H1).
  rewrite <- (left_id_L ∅ (∪) r1) at 1.
  now apply parse_loop_union.
Qed.

Lemma parse_rotations_later_wins_witness :
  parse_rotations (String.append "1:90,2:180" (String "," "1:270")) Sample.world
  = (Return ({[ 1 := 270 ]} ∪ {[ 1 := 90; 2 := 180 ]}), Sample.world).
Proof.
  apply (parse_rotations_later_wins "1:90,2:180" "1:270"
           {[ 1 := 90; 2 := 180 ]} {[ 1 := 270 ]} Sample.world);
    reflexivity.
Defined.

(** ** Footer image: when the transform returns *)

(** X14. The footer transform returns a document exactly when the input
    has no page at all or the image is a raster file reportlab can read
    whose name does not end in [.svg]; in every other case it raises at the
    first page. *)
Theorem add_footer_image_returns_iff (w : World) (pdf_path image_path : string)
    (doc : Pdf.Document) :
  files w !! pdf_path = Some (FPdf doc) →
  is_return (add_footer_image pdf_path image_path w).1 =
    match Pdf.pages doc with
    | [] => true
    | _ :: _ => negb (is_svg image_path) && holds_raster w image_path
    end.
Proof.
  intros Hfile. unfold add_footer_image.
  rewrite (bind_Return _ _ _ _ _ (PdfReader_pdf _ _ _ Hfile)).
  destruct (Pdf.pages doc) as [|page ps] eqn:Hps; [reflexivity|].
  destruct (is_svg image_path) eqn:Hsvg.
  - cbn [for_each].
    rewrite (bind_Raise _ _ _ _ _
               (bind_Raise _ _ _ _ _ (footer_page_svg _ page [] w Hsvg))).
    reflexivity.
  - destruct (holds_raster w image_path) eqn:Hr.
    + rewrite (bind_Return _ _ _ _ _
                 (footer_loop_raster _ (page :: ps) [] w Hsvg Hr)).
      reflexivity.
    + cbn [for_each].
      rewrite (bind_Raise _ _ _ _ _
                 (bind_Raise _ _ _ _ _ (footer_page_draw_fails _ page [] w Hsvg Hr))).
      reflexivity.
Qed.

Lemma add_footer_image_returns_iff_witness :
  is_return (add_footer_image "in.pdf" "logo.svg" Sample.world).1 =
    match Pdf.pages Sample.doc with
    | [] => true
    | _ :: _ => negb (is_svg "logo.svg") && holds_raster Sample.world "logo.svg"
    end.
Proof.
  apply (add_footer_image_returns_iff Sample.world "in.pdf" "logo.svg" Sample.doc).
  reflexivity.
Defined.

(** ** The driver: an input that is not a PDF, an output that is a
    directory *)

(** X15. An input path that exists but that PyPDF2 cannot open ends the
    run first: whatever the other options are, even a malformed [--rotate]
    or a missing footer image, the run prints the generic message with the
    exception of the reader, exits with status 1 and writes nothing. *)
Theorem unreadable_input_exits_1 (args : Args) (w : World) (f : file) (e : exn) :
  files w !! input args = Some f →
  PdfReader (input args) w = (Raise e, w) →
  main args w =
    (SystemExit 1,
     {| files := files w;
        stdout := stdout w ++ [TextExn "Error processing PDF: " e] |}).
Proof.
  intros Hfile Hreader.
  rewrite main_input_found by (rewrite Hfile; eauto).
  rewrite main_try_stages. now rewrite (bind_Raise _ _ _ _ _ Hreader).
Qed.

Lemma unreadable_input_exits_1_witness :
  main {| input := "logo.png"; output := "out.pdf"; rotate := Some "x";
          replace_url := None; footer_image := Some "nowhere.png" |}
    Sample.world =
    (SystemExit 1,
     {| files := files Sample.world;
        stdout := stdout Sample.world ++
          [TextExn "Error processing PDF: " PdfReadError] |}).
Proof.
  apply (unreadable_input_exits_1
           {| input := "logo.png"; output := "out.pdf"; rotate := Some "x";
              replace_url := None; footer_image := Some "nowhere.png" |}
           Sample.world FRaster PdfReadError); reflexivity.
Defined.

(** When every stage returns, the [try] block reaches the write with the
    working object that the options determine. *)
Lemma main_try_reaches_write (args : Args) (w : World) (doc : Pdf.Document) :
  files w !! input args = Some (FPdf doc) →
  returns_on (rotate_transform args) w = true →
  returns_on (replace_transform args) w = true →
  returns_on (footer_transform args) w = true →
  footer_found args w = true →
  ∃ wk, main_try args w = write_stage args wk w.
Proof.
  intros Hfile H1 H2 H3 Hfound. rewrite main_try_stages.
  rewrite (bind_Return _ _ _ _ _ (PdfReader_pdf _ _ _ Hfile)).
  destruct (rotate_stage_returns args (BareReader doc) w H1) as [wk1 E1].
  rewrite (bind_Return _ _ _ _ _ E1).
  destruct (replace_stage_returns args wk1 w H2) as [wk2 E2].
  rewrite (bind_Return _ _ _ _ _ E2).
  destruct (footer_stage_returns args wk2 w Hfound H3) as [wk3 E3].
  rewrite (bind_Return _ _ _ _ _ E3). now exists wk3.
Qed.

(** X16. The output is opened only after every transform has run: when
    the stages all return and the output path is a directory, the run
    fails at [open], prints the generic message with the error of the
    operating system and exits with status 1, the work of the transforms
    being lost. *)
Theorem output_directory_exits_1 (args : Args) (w : World) (doc : Pdf.Document) :
  files w !! input args = Some (FPdf doc) →
  returns_on (rotate_transform args) w = true →
  returns_on (replace_transform args) w = true →
  returns_on (footer_transform args) w = true →
  footer_found args w = true →
  holds_dir w (output args) = true →
  main args w =
    (SystemExit 1,
     {| files := files w;
        stdout := stdout w ++
          [TextExn "Error processing PDF: " (OSError (output args))] |}).
Proof.
  intros Hfile H1 H2 H3 Hfound Hdir.
  rewrite main_input_found by (rewrite Hfile; eauto).
  destruct (main_try_reaches_write args w doc Hfile H1 H2 H3 Hfound) as [wk ->].
  now rewrite write_stage_cases, Hdir.
Qed.

Lemma output_directory_exits_1_witness :
  main {| input := "in.pdf"; output := "reports"; rotate := Some "1:90";
          replace_url := None; footer_image := None |}
    {| files := <["reports" := FDir]> (files Sample.world); stdout := [] |} =
    (SystemExit 1,
     {| files := <["reports" := FDir]> (files Sample.world);
        stdout := [] ++ [TextExn "Error processing PDF: " (OSError "reports")] |}).
Proof.
  exact (output_directory_exits_1
           {| input := "in.pdf"; output := "reports"; rotate := Some "1:90";
              replace_url := None; footer_image := None |}
           {| files := <["reports" := FDir]> (files Sample.world); stdout := [] |}
           Sample.doc eq_refl eq_refl eq_refl eq_refl eq_refl eq_refl).
Defined.

(** ** The test for an SVG name *)

Lemma lower_app (a b : string) :
  PyStr.lower (String.append a b) = String.append (PyStr.lower a) (PyStr.lower b).
Proof. induction a as [|c a IH]; simpl; [reflexivity|now rewrite IH]. Qed.

Lemma length_append (a b : string) :
  String.length (String.append a b) = (String.length a + String.length b)%nat.
Proof. induction a as [|c a IH]; simpl; [reflexivity|now rewrite IH]. Qed.

Lemma substring_all (s : string) : String.substring 0 (String.length s) s = s.
Proof. induction s as [|c s IH]; simpl; [reflexivity|now rewrite IH]. Qed.

Lemma substring_suffix (a suffix : string) :
  String.substring (String.length a) (String.length suffix)
    (String.append a suffix) = suffix.
Proof. induction a as [|c a IH]; simpl; [apply substring_all|exact IH]. Qed.

Lemma endswith_app (a suffix : string) :
  PyStr.endswith (String.append a suffix) suffix = true.
Proof.
  unfold PyStr.endswith. rewrite length_append.
  replace (String.length a + String.length suffix - String.length suffix)%nat
    with (String.length a) by lia.
  rewrite substring_suffix, String.eqb_refl, andb_true_r.
  apply Nat.leb_le. lia.
Qed.

(** X17. The SVG test looks at the name only and ignores the case of
    letters: a path whose last four characters are [.svg] in any mix of
    upper and lower case is taken for an SVG, whatever the file holds. *)
Theorem is_svg_any_case (name ext : string) :
  PyStr.lower ext = ".svg"%string →
  is_svg (String.append name ext) = true.
Proof.
  intros Hext. unfold is_svg. rewrite lower_app, Hext. apply endswith_app.
Qed.

Lemma is_svg_any_case_witness : is_svg (String.append "Logo" ".SvG") = true.
Proof. apply (is_svg_any_case "Logo" ".SvG"). reflexivity. Defined.

(** ** Running a transform on its own output *)

(** X18. Rotation accumulates: rotating the document that a first rotation
    returned adds the second angle to the stored value, which is then the
    original rotation plus both angles (a missing entry counting as 0);
    nothing is reduced modulo 360 on the way. *)
Theorem rotate_pages_twice_adds (w w' : World) (pdf_path pdf_path' : string)
    (doc : Pdf.Document) (r1 r2 : gmap Z Z) :
  files w !! pdf_path = Some (FPdf doc) →
  right_angles r1 (length (Pdf.pages doc)) = true →
  right_angles r2 (length (Pdf.pages doc)) = true →
  ∃ d1,
    rotate_pages pdf_path r1 w = (Return d1, w)
    ∧ (files w' !! pdf_path' = Some (FPdf d1) →
       ∃ d2,
         rotate_pages pdf_path' r2 w' = (Return d2, w')
         ∧ length (Pdf.pages d2) = length (Pdf.pages doc)
         ∧ ∀ i page, Pdf.pages doc !! i = Some page →
             ∃ page2, Pdf.pages d2 !! i = Some page2
               ∧ Pdf.Rotate page2 =
                   Pdf.Rotate page + default 0 (angle_of r1 i)
                   + default 0 (angle_of r2 i)).
Proof.
  intros Hfile H1 H2. eexists. split.
  { apply (rotate_pages_ok w pdf_path doc r1 Hfile).
    intros i page angle Hi. apply lookup_lt_Some in Hi.
    now apply right_angles_lookup with (n := length (Pdf.pages doc)). }
  intros Hfile'. eexists. split; [|split].
  - apply (rotate_pages_ok w' pdf_path' _ r2 Hfile').
    cbn [Pdf.pages]. intros i page angle Hi. apply lookup_lt_Some in Hi.
    rewrite length_imap in Hi.
    now apply right_angles_lookup with (n := length (Pdf.pages doc)).
  - cbn [Pdf.pages]. now rewrite !length_imap.
  - intros i page Hi. cbn [Pdf.pages]. eexists. split.
    + rewrite !list_lookup_imap, Hi. reflexivity.
    + unfold rotated, angle_of.
      destruct (r1 !! (Z.of_nat i + 1)), (r2 !! (Z.of_nat i + 1)); simpl; lia.
Qed.

Lemma rotate_pages_twice_adds_witness :
  ∃ d1,
    rotate_pages "in.pdf" {[ 2 := 90 ]} Sample.world = (Return d1, Sample.world)
    ∧ (files {| files := {[ "step.pdf" := FPdf
                  {| Pdf.pages := imap (rotated {[ 2 := 90 ]}) (Pdf.pages Sample.doc);
                     Pdf.objects := Pdf.objects Sample.doc |} ]};
                stdout := [] |} !! "step.pdf" = Some (FPdf d1) →
       ∃ d2,
         rotate_pages "step.pdf" {[ 2 := 90 ]}
           {| files := {[ "step.pdf" := FPdf
                {| Pdf.pages := imap (rotated {[ 2 := 90 ]}) (Pdf.pages Sample.doc);
                   Pdf.objects := Pdf.objects Sample.doc |} ]};
              stdout := [] |}
         = (Return d2,
            {| files := {[ "step.pdf" := FPdf
                 {| Pdf.pages := imap (rotated {[ 2 := 90 ]}) (Pdf.pages Sample.doc);
                    Pdf.objects := Pdf.objects Sample.doc |} ]};
               stdout := [] |})
         ∧ length (Pdf.pages d2) = length (Pdf.pages Sample.doc)
         ∧ ∀ i page, Pdf.pages Sample.doc !! i = Some page →
             ∃ page2, Pdf.pages d2 !! i = Some page2
               ∧ Pdf.Rotate page2 =
                   Pdf.Rotate page + default 0 (angle_of {[ 2 := 90 ]} i)
                   + default 0 (angle_of {[ 2 := 90 ]} i)).
Proof.
  apply (rotate_pages_twice_adds Sample.world _ "in.pdf" "step.pdf" Sample.doc
           {[ 2 := 90 ]} {[ 2 := 90 ]}); reflexivity.
Defined.

(** X19. The documented substitution is idempotent: run on the document
    it has returned, it returns that document again, because the new
    literal holds no occurrence of the old one. *)
Theorem replace_url_twice_is_once (w w' : World) (pdf_path pdf_path' : string)
    (doc out : Pdf.Document) :
  files w !! pdf_path = Some (FPdf doc) →
  forallb has_contents_key (Pdf.pages doc) = true →
  replace_text_in_pdf pdf_path "team-wiki.local" "team-wiki.etc.com" w
    = (Return out, w) →
  files w' !! pdf_path' = Some (FPdf out) →
  replace_text_in_pdf pdf_path' "team-wiki.local" "team-wiki.etc.com" w'
    = (Return out, w').
Proof.
  intros Hfile Hkeys Hout Hfile'.
  rewrite (replace_text_in_pdf_ok w pdf_path _ _ doc Hfile Hkeys) in Hout.
  injection Hout as <-.
  rewrite (replace_text_in_pdf_ok w' pdf_path' _ _ _ Hfile' Hkeys).
  cbn [Pdf.pages Pdf.objects]. do 3 f_equal.
  apply map_eq. intros ref.
  rewrite !(replace_store_lookup _ _ _ _ url_replace_idem).
  case_decide; [|reflexivity].
  destruct (Pdf.objects doc !! ref) as [data|]; [|reflexivity].
  simpl. f_equal. apply url_replace_idem.
Qed.

Lemma replace_url_twice_is_once_witness :
  replace_text_in_pdf "step.pdf" "team-wiki.local" "team-wiki.etc.com"
    {| files := {[ "step.pdf" := FPdf
         {| Pdf.pages := Pdf.pages Sample.doc;
            Pdf.objects :=
              replace_store (Py.replace old_url new_url) (Pdf.pages Sample.doc)
                (Pdf.objects Sample.doc) |} ]};
       stdout := [] |}
  = (Return
       {| Pdf.pages := Pdf.pages Sample.doc;
          Pdf.objects :=
            replace_store (Py.replace old_url new_url) (Pdf.pages Sample.doc)
              (Pdf.objects Sample.doc) |},
     {| files := {[ "step.pdf" := FPdf
          {| Pdf.pages := Pdf.pages Sample.doc;
             Pdf.objects :=
               replace_store (Py.replace old_url new_url) (Pdf.pages Sample.doc)
                 (Pdf.objects Sample.doc) |} ]};
        stdout := [] |}).
Proof.
  apply (replace_url_twice_is_once Sample.world _ "in.pdf" "step.pdf" Sample.doc);
    reflexivity.
Defined.
